(** * Thinking-block validator hook (hooks/thinking-block-validator)

    A shallow embedding of the proactive thinking-block validator: the
    capability oracle [isExtendedThinkingModel], the per-message checks
    [hasContentParts] and [startsWithThinkingBlock], the backward search
    [findPreviousThinkingContent], the repair [prependThinkingBlock] and the
    messages-transform hook itself.

    Conventions of the embedding.
    - A JavaScript string is a [string] whose characters are UTF-16 code
      units in the range 0..255 (the ASCII and Latin-1 blocks); on that
      range [toLowerCase] and [trim] below are exactly the ECMAScript ones.
    - A field that may be absent ([undefined] or [null]) is an [option].
      The hook itself guards [parts] ([!message.parts]) and reads the info
      record through [?.info?.], so both are optional at run time.
    - The conversation is one array shared with the caller and mutated in
      place; its slots hold distinct message objects.  A function that
      mutates returns the array as it stands when the function exits,
      together with how it exited ([Normal] return or a thrown
      [TypeError]).
    - The constants module ([./constants.js]) is a type class: the hook and
      the theorems about it are parametric in the values of the tables.
      Where a theorem needs something of them, it says so: the repair
      inserts a part of type "thinking", and the theorems about the
      repaired conversation take that type to be listed as thinking-like.
      The sample conversations are run with [referenceConstants]. *)

From Stdlib Require Import String Ascii Bool Arith Lia.
From stdpp Require Import base option list.

Local Open Scope string_scope.
Local Open Scope nat_scope.
Local Open Scope list_scope.

(** ** Strings *)

Definition codeUnit (c : ascii) : nat := nat_of_ascii c.

(** [String.prototype.toLowerCase] on one code unit below 256: A-Z and the
    Latin-1 capitals U+00C0..U+00DE (U+00D7, the multiplication sign, has no
    case) move up by 32. *)
Definition lowerUnit (c : ascii) : ascii :=
  let n := codeUnit c in
  if (65 <=? n) && (n <=? 90)
     || (192 <=? n) && (n <=? 222) && negb (n =? 215)
  then ascii_of_nat (n + 32)
  else c.

Fixpoint toLowerCase (s : string) : string :=
  match s with
  | EmptyString => EmptyString
  | String c s' => String (lowerUnit c) (toLowerCase s')
  end.

(** [s.startsWith(p)] *)
Fixpoint startsWith (s p : string) {struct p} : bool :=
  match p, s with
  | EmptyString, _ => true
  | String _ _, EmptyString => false
  | String b p', String a s' => Ascii.eqb a b && startsWith s' p'
  end.

(** [s.includes(p)] *)
Fixpoint includes (s p : string) : bool :=
  startsWith s p ||
  match s with
  | EmptyString => false
  | String _ s' => includes s' p
  end.

(** [s.endsWith(p)] *)
Fixpoint endsWith (s p : string) : bool :=
  String.eqb s p ||
  match s with
  | EmptyString => false
  | String _ s' => endsWith s' p
  end.

(** WhiteSpace and LineTerminator code units below 256: TAB, LF, VT, FF, CR,
    SP and NBSP. *)
Definition isWhiteSpace (c : ascii) : bool :=
  let n := codeUnit c in
  (9 <=? n) && (n <=? 13) || (n =? 32) || (n =? 160).

Fixpoint trimStart (s : string) : string :=
  match s with
  | EmptyString => EmptyString
  | String c s' => if isWhiteSpace c then trimStart s' else s
  end.

Fixpoint trimEnd (s : string) : string :=
  match s with
  | EmptyString => EmptyString
  | String c s' =>
      let t := trimEnd s' in
      if isWhiteSpace c && String.eqb t EmptyString then EmptyString
      else String c t
  end.

(** [s.trim()] *)
Definition trim (s : string) : string := trimEnd (trimStart s).

(** Truthiness of a string value: every string but the empty one. *)
Definition truthy (s : string) : bool := negb (String.eqb s EmptyString).

(** [array.includes(x)] on an array of strings. *)
Definition arrayIncludes (table : list string) (x : string) : bool :=
  existsb (String.eqb x) table.

(** ** Data model (types.ts) *)

Inductive Role : Type := user | assistant | system.

Definition Role_eqb (a b : Role) : bool :=
  match a, b with
  | user, user | assistant, assistant | system, system => true
  | _, _ => false
  end.

(** One content part, with the fields the hook reads or writes; [part_rest]
    stands for all the others (tool name, input, ...). *)
Record MessagePart : Type := mkPart {
  part_type : string;
  part_id : option string;
  part_sessionID : option string;
  part_messageID : option string;
  part_thinking : option string;
  part_text : option string;
  part_synthetic : option bool;
  part_rest : list (string * string)
}.

Record MessageInfo : Type := mkInfo {
  info_id : string;
  info_role : Role;
  info_sessionID : option string;
  info_modelID : option string
}.

Record MessageWithParts : Type := mkMessage {
  msg_info : option MessageInfo;
  msg_parts : option (list MessagePart)
}.

(** How a call ends: a normal return, or the [TypeError] raised by reading a
    property of [undefined]. *)
Inductive Completion (A : Type) : Type :=
  | Normal (a : A)
  | Throws.
Arguments Normal {A} a.
Arguments Throws {A}.

(** ** Constants (constants.ts) *)

(** The exports of the constants module that the hook reads.  The module is
    kept abstract: no theorem below depends on the values. *)
Class Constants : Type := mkConstants {
  CONTENT_PART_TYPES : list string;
  THINKING_PART_TYPES : list string;
  DEFAULT_THINKING_CONTENT : string;
  SYNTHETIC_THINKING_ID_PREFIX : string
}.

(** Modelled from the spec: the values of the constants module, which is not
    among the sources.  The part types are the ones the hook's own comments
    and section 3 of the specification name (tool and text parts as content,
    thinking and reasoning parts as thinking-like); the two strings are
    stand-ins.  Used only to run the definitions on concrete conversations. *)
Definition referenceConstants : Constants := {|
  CONTENT_PART_TYPES := ["tool"; "tool_use"; "text"];
  THINKING_PART_TYPES := ["thinking"; "reasoning"];
  DEFAULT_THINKING_CONTENT := "[Continuing from previous reasoning]";
  SYNTHETIC_THINKING_ID_PREFIX := "prt_0000000000_synthetic_thinking"
|}.

(** ** The hook *)

Definition isExtendedThinkingModel (modelID : string) : bool :=
  if negb (truthy modelID) then false
  else
    let lower := toLowerCase modelID in
    if includes lower "thinking" || endsWith lower "-high" then true
    else
      includes lower "claude-sonnet-4"
      || includes lower "claude-opus-4"
      || includes lower "claude-3".

Section Hook.
Context {K : Constants}.

Definition isContentPart (part : MessagePart) : bool :=
  arrayIncludes CONTENT_PART_TYPES (part_type part).

Definition isThinkingPart (part : MessagePart) : bool :=
  arrayIncludes THINKING_PART_TYPES (part_type part).

Definition hasContentParts (parts : option (list MessagePart)) : bool :=
  match parts with
  | None => false
  | Some ps =>
      if length ps =? 0 then false
      else existsb isContentPart ps
  end.

Definition startsWithThinkingBlock (parts : option (list MessagePart)) : bool :=
  match parts with
  | None => false
  | Some [] => false
  | Some (firstPart :: _) => isThinkingPart firstPart
  end.

(** The value the search returns for one thinking-like part, if any:
    [part.thinking || part.text], kept when it is a string with something
    other than white space in it. *)
Definition thinkingText (part : MessagePart) : option string :=
  let thinking :=
    match part_thinking part with
    | Some t => if truthy t then Some t else part_text part
    | None => part_text part
    end in
  match thinking with
  | Some t => if truthy t && (0 <? String.length (trim t)) then Some t else None
  | None => None
  end.

(** The inner loop of the search, over the parts of one message. *)
Fixpoint scanParts (parts : list MessagePart) : option string :=
  match parts with
  | [] => None
  | part :: rest =>
      if isThinkingPart part then
        match thinkingText part with
        | Some thinking => Some thinking
        | None => scanParts rest
        end
      else scanParts rest
  end.

(** [findPreviousThinkingContent messages currentIndex]; the recursion is on
    [currentIndex], its step [S i] being the iteration at index [i]. *)
Fixpoint findPreviousThinkingContent
    (messages : list MessageWithParts) (currentIndex : nat) : Completion string :=
  match currentIndex with
  | 0 => Normal ""
  | S i =>
      match messages !! i with
      | None => Throws
      | Some msg =>
          match msg_info msg with
          | None => Throws
          | Some info =>
              if negb (Role_eqb (info_role info) assistant)
              then findPreviousThinkingContent messages i
              else
                match msg_parts msg with
                | None => findPreviousThinkingContent messages i
                | Some parts =>
                    match scanParts parts with
                    | Some thinking => Normal thinking
                    | None => findPreviousThinkingContent messages i
                    end
                end
          end
      end
  end.

(** The object literal built by [prependThinkingBlock]. *)
Definition thinkingPart (info : MessageInfo) (thinkingContent : string) : MessagePart :=
  {| part_type := "thinking";
     part_id := Some SYNTHETIC_THINKING_ID_PREFIX;
     part_sessionID :=
       Some match info_sessionID info with
            | Some s => if truthy s then s else ""
            | None => ""
            end;
     part_messageID := Some (info_id info);
     part_thinking := Some thinkingContent;
     part_text := None;
     part_synthetic := Some true;
     part_rest := [] |}.

(** [prependThinkingBlock message thinkingContent]: the message as the call
    leaves it, and how the call ends. *)
Definition prependThinkingBlock
    (message : MessageWithParts) (thinkingContent : string)
    : MessageWithParts * Completion unit :=
  let parts := match msg_parts message with
               | None => []
               | Some ps => ps
               end in
  match msg_info message with
  | None => ({| msg_info := None; msg_parts := Some parts |}, Throws)
  | Some info =>
      ({| msg_info := Some info;
          msg_parts := Some (thinkingPart info thinkingContent :: parts) |},
       Normal tt)
  end.

(** The scan for the last user message, from the end of the array. *)
Fixpoint lastUserMessage
    (messages : list MessageWithParts) (n : nat)
    : Completion (option MessageWithParts) :=
  match n with
  | 0 => Normal None
  | S i =>
      match messages !! i with
      | None => Throws
      | Some msg =>
          match msg_info msg with
          | None => Throws
          | Some info =>
              if Role_eqb (info_role info) user then Normal (Some msg)
              else lastUserMessage messages i
          end
      end
  end.

(** [lastUserMessage?.info?.modelID || ""] *)
Definition modelIDOf (lastUser : option MessageWithParts) : string :=
  match lastUser with
  | None => ""
  | Some msg =>
      match msg_info msg with
      | None => ""
      | Some info =>
          match info_modelID info with
          | Some m => m
          | None => ""
          end
      end
  end.

(** The repair loop [for (let i = 0; i < messages.length; i++)]: [fuel] is
    the number of iterations left, [messages.length - i].  The repair count
    kept for the debug log is left out. *)
Fixpoint repairLoop (fuel i : nat) (messages : list MessageWithParts)
    : list MessageWithParts * Completion unit :=
  match fuel with
  | 0 => (messages, Normal tt)
  | S fuel' =>
      match messages !! i with
      | None => (messages, Throws)
      | Some msg =>
          match msg_info msg with
          | None => (messages, Throws)
          | Some info =>
              if negb (Role_eqb (info_role info) assistant)
              then repairLoop fuel' (S i) messages
              else if hasContentParts (msg_parts msg)
                      && negb (startsWithThinkingBlock (msg_parts msg))
              then
                match findPreviousThinkingContent messages i with
                | Throws => (messages, Throws)
                | Normal previousThinking =>
                    let thinkingContent :=
                      if truthy previousThinking then previousThinking
                      else DEFAULT_THINKING_CONTENT in
                    let (msg', done) := prependThinkingBlock msg thinkingContent in
                    let messages' := <[i := msg']> messages in
                    match done with
                    | Throws => (messages', Throws)
                    | Normal _ => repairLoop fuel' (S i) messages'
                    end
                end
              else repairLoop fuel' (S i) messages
          end
      end
  end.

(** The ["experimental.chat.messages.transform"] handler, on the array
    [output.messages] (an absent array returns at once, like the empty
    one). *)
Definition transform (messages : list MessageWithParts)
    : list MessageWithParts * Completion unit :=
  if length messages =? 0 then (messages, Normal tt)
  else
    match lastUserMessage messages (length messages) with
    | Throws => (messages, Throws)
    | Normal lastUser =>
        if negb (isExtendedThinkingModel (modelIDOf lastUser))
        then (messages, Normal tt)
        else repairLoop (length messages) 0 messages
    end.

End Hook.

(** ** Vocabulary of the statements *)

(** [s] contains [token], up to the case of letters. *)
Definition ContainsNoCase (s token : string) : Prop :=
  exists pre mid post : string,
    s = (pre ++ mid ++ post)%string /\ toLowerCase mid = token.

(** [s] ends with [suffix], up to the case of letters. *)
Definition EndsWithNoCase (s suffix : string) : Prop :=
  exists pre fin : string,
    s = (pre ++ fin)%string /\ toLowerCase fin = suffix.

Definition partsOf (m : MessageWithParts) : list MessagePart :=
  match msg_parts m with
  | None => []
  | Some ps => ps
  end.

Definition hasInfo (m : MessageWithParts) : Prop := msg_info m <> None.

(** Every message carries its info record. *)
Definition WellFormed (messages : list MessageWithParts) : Prop :=
  Forall hasInfo messages.

Definition roleIs (r : Role) (m : MessageWithParts) : bool :=
  match msg_info m with
  | Some info => Role_eqb (info_role info) r
  | None => false
  end.

Definition notUser (m : MessageWithParts) : Prop :=
  hasInfo m /\ roleIs user m = false.

(** [u] is the most recent user message of [messages], [None] when there is
    no user message. *)
Definition LastUser (messages : list MessageWithParts)
    (u : option MessageWithParts) : Prop :=
  match u with
  | Some m =>
      exists before after,
        messages = before ++ m :: after
        /\ roleIs user m = true
        /\ Forall notUser after
  | None => Forall notUser messages
  end.

(** The model of the most recent user message is an enforcing one. *)
Definition Enforcing (messages : list MessageWithParts) : Prop :=
  exists u, LastUser messages (Some u)
            /\ isExtendedThinkingModel (modelIDOf (Some u)) = true.

(** The index at which the repair loop stops: the first message without an
    info record, or the length of the array. *)
Definition StopsAt (messages : list MessageWithParts) (k : nat) : Prop :=
  k <= length messages
  /\ WellFormed (take k messages)
  /\ (k < length messages ->
      exists bad, messages !! k = Some bad /\ msg_info bad = None).

Definition completionAt (messages : list MessageWithParts) (k : nat)
    : Completion unit :=
  if k <? length messages then Throws else Normal tt.

Section Vocabulary.
Context {K : Constants}.

Definition nonThinkingParts (parts : list MessagePart) : list MessagePart :=
  List.filter (fun p => negb (isThinkingPart p)) parts.

(** The violation of section 4.2, for a model that enforces. *)
Definition isViolation (m : MessageWithParts) : bool :=
  roleIs assistant m
  && hasContentParts (msg_parts m)
  && negb (startsWithThinkingBlock (msg_parts m)).

(** No thinking-like part of [parts] has a non-empty thinking text. *)
Definition NoThinkingText (parts : list MessagePart) : Prop :=
  Forall (fun p => isThinkingPart p = true -> thinkingText p = None) parts.

(** [t] is the text of the first thinking-like part of [parts] that has a
    non-empty one. *)
Definition FirstThinkingText (parts : list MessagePart) (t : string) : Prop :=
  exists before part after,
    parts = before ++ part :: after
    /\ isThinkingPart part = true
    /\ thinkingText part = Some t
    /\ NoThinkingText before.

(** [m] is an assistant message whose first non-empty thinking text is [t]. *)
Definition OffersThinking (m : MessageWithParts) (t : string) : Prop :=
  roleIs assistant m = true
  /\ exists ps, msg_parts m = Some ps /\ FirstThinkingText ps t.

(** [m] is not an assistant message with a non-empty thinking text. *)
Definition OffersNothing (m : MessageWithParts) : Prop :=
  roleIs assistant m = true ->
  forall ps, msg_parts m = Some ps -> NoThinkingText ps.

(** [t] is what the most recent message before index [i] offers. *)
Definition MostRecentThinking
    (messages : list MessageWithParts) (i : nat) (t : string) : Prop :=
  exists j m,
    j < i /\ messages !! j = Some m /\ OffersThinking m t
    /\ forall k m', j < k < i -> messages !! k = Some m' -> OffersNothing m'.

Definition NoEarlierThinking
    (messages : list MessageWithParts) (i : nat) : Prop :=
  forall k m', k < i -> messages !! k = Some m' -> OffersNothing m'.

(** As [MostRecentThinking], the message that offers [t] being one the
    pass leaves alone. *)
Definition MostRecentCompliantThinking
    (messages : list MessageWithParts) (i : nat) (t : string) : Prop :=
  exists j m,
    j < i /\ messages !! j = Some m /\ OffersThinking m t
    /\ isViolation m = false
    /\ forall k m', j < k < i -> messages !! k = Some m' -> OffersNothing m'.

(** The content the driver gives the synthetic part:
    [previousThinking || DEFAULT_THINKING_CONTENT]. *)
Definition chosenContent (previous : string) : string :=
  if truthy previous then previous else DEFAULT_THINKING_CONTENT.

(** The message a repair leaves behind. *)
Definition repairedMessage (info : MessageInfo) (content : string)
    (m : MessageWithParts) : MessageWithParts :=
  {| msg_info := Some info;
     msg_parts := Some (thinkingPart info content :: partsOf m) |}.

(** [m'] is what the pass makes of the message [m] at index [j], the array
    being [state] when the loop gets there. *)
Definition RepairedAt (state : list MessageWithParts) (j : nat)
    (m m' : MessageWithParts) : Prop :=
  (isViolation m = false /\ m' = m)
  \/ (isViolation m = true
      /\ exists info previous,
           msg_info m = Some info
           /\ findPreviousThinkingContent state j = Normal previous
           /\ m' = repairedMessage info
                     (if truthy previous then previous
                      else DEFAULT_THINKING_CONTENT) m).

(** [out] is [messages] after a pass that went through the indices below
    [k] and touched nothing from [k] on. *)
Definition PassUpTo (k : nat) (messages out : list MessageWithParts) : Prop :=
  length out = length messages
  /\ (forall j, k <= j -> out !! j = messages !! j)
  /\ (forall j m, j < k -> messages !! j = Some m ->
        exists m', out !! j = Some m' /\ RepairedAt out j m m').

(** Every assistant message with content starts with a thinking-like part. *)
Definition InvariantHolds (messages : list MessageWithParts) : Prop :=
  Forall (fun m => roleIs assistant m = true ->
                   hasContentParts (msg_parts m) = true ->
                   startsWithThinkingBlock (msg_parts m) = true) messages.

End Vocabulary.

(** ** Validation reports *)

(** The result of validating one message ([ValidationResult]). *)
Record ValidationResult : Type := mkResult {
  result_valid : bool;
  result_fixed : bool;
  result_issue : option string;
  result_action : option string
}.

(** [{ valid: true, fixed: false }] *)
Definition passedResult : ValidationResult :=
  {| result_valid := true; result_fixed := false;
     result_issue := None; result_action := None |}.

(** The double quote, code unit 34. *)
Definition doubleQuote : string := String (ascii_of_nat 34) EmptyString.

(** The template literal of the [action] field, around the first 50 code
    units of the content. *)
Definition actionText (thinkingContent : string) : string :=
  ("Prepended synthetic thinking block: " ++ doubleQuote
   ++ String.substring 0 50 thinkingContent ++ "..." ++ doubleQuote)%string.

Definition fixedResult (thinkingContent : string) : ValidationResult :=
  {| result_valid := false; result_fixed := true;
     result_issue := Some "Assistant message has content but no thinking block";
     result_action := Some (actionText thinkingContent) |}.

(** The object [getValidationStats] returns. *)
Record ValidationStats : Type := mkStats {
  stats_total : nat;
  stats_valid : nat;
  stats_fixed : nat;
  stats_issues : nat
}.

Definition getValidationStats (results : list ValidationResult)
    : ValidationStats :=
  {| stats_total := length results;
     stats_valid :=
       length (List.filter
                 (fun r => result_valid r && negb (result_fixed r)) results);
     stats_fixed := length (List.filter (fun r => result_fixed r) results);
     stats_issues :=
       length (List.filter (fun r => negb (result_valid r)) results) |}.

Section Validation.
Context {K : Constants}.

(** [validateMessage message messages index modelID]: the message as the
    call leaves it, and the result or the [TypeError]. *)
Definition validateMessage
    (message : MessageWithParts) (messages : list MessageWithParts)
    (index : nat) (modelID : string)
    : MessageWithParts * Completion ValidationResult :=
  match msg_info message with
  | None => (message, Throws)
  | Some info =>
      if negb (Role_eqb (info_role info) assistant)
      then (message, Normal passedResult)
      else if negb (isExtendedThinkingModel modelID)
      then (message, Normal passedResult)
      else if hasContentParts (msg_parts message)
              && negb (startsWithThinkingBlock (msg_parts message))
      then
        match findPreviousThinkingContent messages index with
        | Throws => (message, Throws)
        | Normal previousThinking =>
            let thinkingContent :=
              if truthy previousThinking then previousThinking
              else DEFAULT_THINKING_CONTENT in
            let (message', done) :=
              prependThinkingBlock message thinkingContent in
            match done with
            | Throws => (message', Throws)
            | Normal _ => (message', Normal (fixedResult thinkingContent))
            end
        end
      else (message, Normal passedResult)
  end.

(** The loop of [validateMessages]; [messages[i]] is the object handed to
    [validateMessage], so what that call does to it shows in the array. *)
Fixpoint validateLoop (fuel i : nat) (messages : list MessageWithParts)
    (modelID : string) (results : list ValidationResult)
    : list MessageWithParts * Completion (list ValidationResult) :=
  match fuel with
  | 0 => (messages, Normal results)
  | S fuel' =>
      match messages !! i with
      | None => (messages, Throws)
      | Some msg =>
          let (msg', result) := validateMessage msg messages i modelID in
          let messages' := <[i := msg']> messages in
          match result with
          | Throws => (messages', Throws)
          | Normal r =>
              validateLoop fuel' (S i) messages' modelID (results ++ [r])
          end
      end
  end.

Definition validateMessages
    (messages : list MessageWithParts) (modelID : string)
    : list MessageWithParts * Completion (list ValidationResult) :=
  validateLoop (length messages) 0 messages modelID [].

End Validation.

(** ** Further vocabulary *)

(** Every code unit of [s] is white space. *)
Definition isBlank (s : string) : Prop :=
  forall c, In c (list_ascii_of_string s) -> isWhiteSpace c = true.

Definition isAssistant (m : MessageWithParts) : bool := roleIs assistant m.

(** [t] has a code unit that is not white space. *)
Definition NotBlank (t : string) : Prop :=
  exists c, In c (list_ascii_of_string t) /\ isWhiteSpace c = false.

(** [t] is the string [part.thinking || part.text] stands for: the
    [thinking] field when it is there and not empty, the [text] field
    otherwise. *)
Definition ThinkingOrText (part : MessagePart) (t : string) : Prop :=
  (part_thinking part = Some t /\ t <> "")
  \/ ((part_thinking part = None \/ part_thinking part = Some "")
      /\ part_text part = Some t).

Section SearchVocabulary.
Context {K : Constants}.

(** [part] is a thinking-like part whose thinking text is [t], and [t] is
    not empty: it holds more than white space. *)
Definition ReusableThinking (part : MessagePart) (t : string) : Prop :=
  In (part_type part) THINKING_PART_TYPES
  /\ ThinkingOrText part t
  /\ NotBlank t.

(** [t] is the thinking text of the first part of [parts] that has a
    non-empty one. *)
Definition FirstReusableThinking (parts : list MessagePart) (t : string)
    : Prop :=
  exists before part after,
    parts = before ++ part :: after
    /\ ReusableThinking part t
    /\ forall p t', In p before -> ~ ReusableThinking p t'.

(** [m] is an assistant message, and [t] the first non-empty thinking text
    among its parts. *)
Definition AssistantOffers (m : MessageWithParts) (t : string) : Prop :=
  (exists info, msg_info m = Some info /\ info_role info = assistant)
  /\ exists ps, msg_parts m = Some ps /\ FirstReusableThinking ps t.

(** Message [j] is the most recent one before index [i] that is an
    assistant message with a non-empty thinking text, and [t] is that
    text. *)
Definition MostRecentOffer (messages : list MessageWithParts)
    (i : nat) (t : string) : Prop :=
  exists j m,
    j < i /\ messages !! j = Some m /\ AssistantOffers m t
    /\ forall k m' t',
         j < k < i -> messages !! k = Some m' -> ~ AssistantOffers m' t'.

(** No assistant message before index [i] has a non-empty thinking text. *)
Definition NoOfferBefore (messages : list MessageWithParts) (i : nat)
    : Prop :=
  forall k m' t',
    k < i -> messages !! k = Some m' -> ~ AssistantOffers m' t'.

End SearchVocabulary.

(** ** Sample conversations *)

Definition samplePart (type : string) : MessagePart :=
  mkPart type None None None None None None [].

Definition sampleThinking (thinking : string) : MessagePart :=
  mkPart "thinking" None None None (Some thinking) None None [].

Definition sampleAssistant (id : string) (parts : list MessagePart)
    : MessageWithParts :=
  mkMessage (Some (mkInfo id assistant (Some "ses_1") None)) (Some parts).

Definition sampleUser (id modelID : string) : MessageWithParts :=
  mkMessage (Some (mkInfo id user (Some "ses_1") (Some modelID)))
            (Some [samplePart "text"]).

(** Two assistant turns that each lack the leading thinking block. *)
Definition twoViolations : list MessageWithParts :=
  [ sampleAssistant "msg_1" [samplePart "tool_use"];
    sampleUser "msg_2" "claude-opus-4-thinking";
    sampleAssistant "msg_3" [samplePart "text"; samplePart "tool"] ].

(** An earlier assistant turn whose reasoning comes after its text. *)
Definition lateThinking : list MessageWithParts :=
  [ sampleAssistant "msg_1" [samplePart "text"; sampleThinking "reasoning A"];
    sampleAssistant "msg_2" [samplePart "tool_use"];
    sampleUser "msg_3" "claude-opus-4-thinking" ].

(** A message without its info record between two violating turns. *)
Definition brokenInTheMiddle : list MessageWithParts :=
  [ sampleAssistant "msg_1" [samplePart "tool_use"];
    mkMessage None (Some [samplePart "text"]);
    sampleAssistant "msg_3" [samplePart "tool_use"];
    sampleUser "msg_4" "claude-opus-4-thinking" ].

(** A turn without a parts array next to a violating one. *)
Definition missingParts : list MessageWithParts :=
  [ mkMessage (Some (mkInfo "msg_1" assistant None None)) None;
    sampleAssistant "msg_2" [samplePart "tool_use"];
    sampleUser "msg_3" "claude-3-7-sonnet" ].

(** Scenario B of the specification: a model that does not enforce. *)
Definition scenarioB : list MessageWithParts :=
  [ sampleUser "msg_1" "gpt-4";
    sampleAssistant "msg_2" [samplePart "tool_use"] ].

(** Scenario C of the specification: a compliant turn with reasoning, then a
    turn in violation. *)
Definition scenarioC : list MessageWithParts :=
  [ sampleUser "msg_1" "claude-opus-4-thinking";
    sampleAssistant "msg_2" [sampleThinking "reasoning A"; samplePart "text"];
    sampleAssistant "msg_3" [samplePart "tool_use"] ].

(** The most recent assistant turn before the last one has a thinking part
    of white space only; an older turn, before a user message, has real
    reasoning. *)
Definition blankThinking : list MessageWithParts :=
  [ sampleAssistant "msg_1" [sampleThinking "older"; samplePart "text"];
    sampleUser "msg_2" "claude-opus-4-thinking";
    sampleAssistant "msg_3" [sampleThinking "   "; samplePart "text"];
    sampleAssistant "msg_4" [samplePart "tool_use"] ].

(** A message without its info record after the last user message. *)
Definition brokenAtTheEnd : list MessageWithParts :=
  [ sampleUser "msg_1" "claude-opus-4-thinking";
    sampleAssistant "msg_2" [samplePart "tool_use"];
    mkMessage None (Some [samplePart "text"]) ].

(** * Properties *)

(** ** Strings *)

Lemma startsWith_spec (s p : string) :
  startsWith s p = true <-> exists post, s = (p ++ post)%string.
Proof.
  revert s. induction p as [|b p IH]; intros s; simpl.
  - split; [intros _; by exists s | reflexivity].
  - destruct s as [|a s].
    + split; [discriminate | intros [post Hpost]; discriminate].
    + rewrite andb_true_iff, Ascii.eqb_eq, IH. split.
      * intros [-> [post ->]]. by exists post.
      * intros [post Hpost]. injection Hpost as -> ->. eauto.
Qed.

Lemma includes_spec (s p : string) :
  includes s p = true <-> exists pre post, s = (pre ++ p ++ post)%string.
Proof.
  induction s as [|a s IH]; simpl; rewrite orb_true_iff, startsWith_spec.
  - split.
    + intros [[post Hpost] | ?]; [|done]. by exists EmptyString, post.
    + intros [pre [post Hs]]. left. destruct pre; [by exists post | done].
  - rewrite IH. split.
    + intros [[post Hpost] | [pre [post ->]]].
      * by exists EmptyString, post.
      * by exists (String a pre), post.
    + intros [pre [post Hs]]. destruct pre as [|c pre].
      * left. by exists post.
      * right. injection Hs as -> ->. eauto.
Qed.

Lemma endsWith_spec (s p : string) :
  endsWith s p = true <-> exists pre, s = (pre ++ p)%string.
Proof.
  induction s as [|a s IH]; cbn [endsWith]; rewrite orb_true_iff, String.eqb_eq.
  - split.
    + intros [<- | ?]; [|done]. by exists EmptyString.
    + intros [pre Hs]. left. destruct pre; [done | discriminate].
  - rewrite IH. split.
    + intros [<- | [pre ->]].
      * by exists EmptyString.
      * by exists (String a pre).
    + intros [pre Hs]. destruct pre as [|c pre].
      * by left.
      * right. injection Hs as -> ->. eauto.
Qed.

Lemma toLowerCase_app (a b : string) :
  toLowerCase (a ++ b) = (toLowerCase a ++ toLowerCase b)%string.
Proof. induction a as [|c a IH]; simpl; [done | by rewrite IH]. Qed.

Lemma toLowerCase_split (s a b : string) :
  toLowerCase s = (a ++ b)%string ->
  exists a' b', s = (a' ++ b')%string
                /\ toLowerCase a' = a /\ toLowerCase b' = b.
Proof.
  revert s. induction a as [|c a IH]; intros s Hs; simpl in Hs.
  - by exists EmptyString, s.
  - destruct s as [|d s]; [discriminate|]. simpl in Hs.
    injection Hs as Hc Hs. destruct (IH _ Hs) as (a' & b' & -> & <- & <-).
    exists (String d a'), b'. simpl. by rewrite Hc.
Qed.

Lemma includes_lower (s token : string) :
  includes (toLowerCase s) token = true <-> ContainsNoCase s token.
Proof.
  rewrite includes_spec. unfold ContainsNoCase. split.
  - intros (pre & post & Hs).
    apply toLowerCase_split in Hs as (pre' & rest & -> & _ & Hrest).
    apply toLowerCase_split in Hrest as (mid & post' & -> & Hmid & _).
    by exists pre', mid, post'.
  - intros (pre & mid & post & -> & <-).
    exists (toLowerCase pre), (toLowerCase post).
    by rewrite !toLowerCase_app.
Qed.

Lemma endsWith_lower (s suffix : string) :
  endsWith (toLowerCase s) suffix = true <-> EndsWithNoCase s suffix.
Proof.
  rewrite endsWith_spec. unfold EndsWithNoCase. split.
  - intros (pre & Hs).
    apply toLowerCase_split in Hs as (pre' & fin & -> & _ & Hfin).
    by exists pre', fin.
  - intros (pre & fin & -> & <-).
    exists (toLowerCase pre). by rewrite toLowerCase_app.
Qed.

Lemma length_append (a b : string) :
  String.length (a ++ b) = String.length a + String.length b.
Proof. induction a as [|c a IH]; simpl; [done | by rewrite IH]. Qed.

Lemma arrayIncludes_spec (table : list string) (x : string) :
  arrayIncludes table x = true <-> In x table.
Proof.
  unfold arrayIncludes. rewrite existsb_exists. split.
  - intros (y & Hy & Heq). apply String.eqb_eq in Heq. by subst.
  - intros Hx. exists x. split; [done | apply String.eqb_refl].
Qed.

(** C4. The capability oracle answers [false] on the empty identifier, and
    answers [true] exactly on the identifiers that, up to the case of
    letters, contain "thinking", end with "-high", or contain one of the
    family fragments "claude-sonnet-4", "claude-opus-4", "claude-3".  Being
    a function of the identifier alone, it is deterministic. *)
Theorem isExtendedThinkingModel_policy :
  isExtendedThinkingModel "" = false
  /\ forall modelID : string,
       isExtendedThinkingModel modelID = true <->
       ContainsNoCase modelID "thinking"
       \/ EndsWithNoCase modelID "-high"
       \/ ContainsNoCase modelID "claude-sonnet-4"
       \/ ContainsNoCase modelID "claude-opus-4"
       \/ ContainsNoCase modelID "claude-3".
Proof.
  split; [reflexivity|]. intros modelID.
  rewrite <- !includes_lower, <- endsWith_lower.
  unfold isExtendedThinkingModel. destruct modelID as [|c modelID].
  - simpl. split; [done|]. intros [?|[?|[?|[?|?]]]]; done.
  - change (truthy (String c modelID)) with true. cbv beta iota zeta.
    change (negb true) with false. cbv iota.
    set (lower := toLowerCase (String c modelID)).
    destruct (includes lower "thinking"); [simpl; tauto|].
    destruct (endsWith lower "-high"); [simpl; tauto|].
    simpl. rewrite !orb_true_iff. split.
    + intros [[?|?]|?]; auto.
    + intros [?|[?|[?|[?|?]]]]; try done; auto.
Qed.

(** ** The per-message checks *)

Section Checks.
Context {K : Constants}.

Lemma hasContentParts_Some (ps : list MessagePart) :
  hasContentParts (Some ps) = existsb isContentPart ps.
Proof. by destruct ps. Qed.

Lemma concat_covers (l : list string) (x : string) :
  In x l -> String.length x <= String.length (String.concat "" l).
Proof.
  induction l as [|y l IH]; [done|]. intros [-> | Hx].
  - destruct l; simpl; [lia|]. rewrite !length_append. lia.
  - specialize (IH Hx). destruct l; [done|].
    change (String.concat "" (y :: s :: l))
      with (y ++ "" ++ String.concat "" (s :: l))%string.
    rewrite !length_append. lia.
Qed.

(** Whatever the two tables hold, some part type is in neither of them. *)
Lemma unknown_type_exists :
  exists type : string,
    ~ In type CONTENT_PART_TYPES /\ ~ In type THINKING_PART_TYPES.
Proof.
  set (all := CONTENT_PART_TYPES ++ THINKING_PART_TYPES).
  exists (String "x" (String.concat "" all)).
  assert (Hfresh : ~ In (String "x" (String.concat "" all)) all).
  { intros Hin. apply concat_covers in Hin. simpl in Hin. lia. }
  split; intros Hin; apply Hfresh, in_or_app; auto.
Qed.

Lemma isThinkingPart_thinkingPart (info : MessageInfo) (content : string) :
  In "thinking" THINKING_PART_TYPES ->
  isThinkingPart (thinkingPart info content) = true.
Proof. intros Hin. by apply arrayIncludes_spec. Qed.

Lemma isViolation_repairedMessage info content m :
  In "thinking" THINKING_PART_TYPES ->
  isViolation (repairedMessage info content m) = false.
Proof.
  intros Hin. unfold isViolation. simpl.
  rewrite isThinkingPart_thinkingPart by done. simpl.
  by rewrite andb_false_r.
Qed.

Lemma isViolation_false_invariant m :
  isViolation m = false ->
  roleIs assistant m = true ->
  hasContentParts (msg_parts m) = true ->
  startsWithThinkingBlock (msg_parts m) = true.
Proof.
  unfold isViolation. intros Hv Hr Hc. rewrite Hr, Hc in Hv.
  by destruct (startsWithThinkingBlock (msg_parts m)).
Qed.

(** What [hasContentParts] computes: it is an allow-list test, [true]
    exactly when some part of the sequence has its type in the table of
    content types.  A part whose type is in neither table, and for every
    choice of the tables there is such a type, is not thinking-like and
    still does not count as content. *)
Lemma hasContentParts_allow_list :
  (forall parts : option (list MessagePart),
     hasContentParts parts = true <->
     exists ps part,
       parts = Some ps /\ In part ps
       /\ In (part_type part) CONTENT_PART_TYPES)
  /\ (exists part,
        isThinkingPart part = false
        /\ hasContentParts (Some [part]) = false).
Proof.
  split.
  - intros [ps|]; [|split; [done | by intros (? & ? & ? & _)]].
    rewrite hasContentParts_Some, existsb_exists. split.
    + intros (part & Hin & Hc). apply arrayIncludes_spec in Hc. eauto.
    + intros (ps' & part & [= <-] & Hin & Hc).
      exists part. split; [done | by apply arrayIncludes_spec].
  - destruct unknown_type_exists as (type & Hc & Ht).
    exists (mkPart type None None None None None None []). split.
    + apply not_true_is_false. intros Hin.
      by apply arrayIncludes_spec in Hin.
    + simpl. rewrite orb_false_r. apply not_true_is_false. intros Hin.
      by apply arrayIncludes_spec in Hin.
Qed.

End Checks.

(** C3. The docstring of [hasContentParts] counts as content "tool_use,
    text, or other non-thinking content", and so does the specification: a
    message has content exactly when one of its parts is not thinking-like.
    The code does not do that.  On a message whose only part has the type
    "file", listed in neither table, the part is not thinking-like and
    [hasContentParts] answers [false], so the equivalence fails there; and
    whatever the tables hold there is a part on which it fails. *)
Theorem hasContentParts_misses_unlisted_type :
  hasContentParts (K := referenceConstants)
    (Some [samplePart "file"]) = false
  /\ isThinkingPart (K := referenceConstants) (samplePart "file") = false
  /\ ~ (hasContentParts (K := referenceConstants)
          (Some [samplePart "file"]) = true
        <-> exists part,
              In part [samplePart "file"]
              /\ isThinkingPart (K := referenceConstants) part = false)
  /\ (forall K : Constants,
        exists part,
          isThinkingPart part = false
          /\ hasContentParts (Some [part]) = false).
Proof.
  split; [reflexivity|]. split; [reflexivity|]. split.
  - intros [_ Hback].
    assert (Hc : hasContentParts (K := referenceConstants)
                   (Some [samplePart "file"]) = true).
    { apply Hback. exists (samplePart "file").
      split; [by left | reflexivity]. }
    discriminate Hc.
  - intros K. apply hasContentParts_allow_list.
Qed.

(** ** The backward search *)

Section Search.
Context {K : Constants}.

Lemma scanParts_Some (ps : list MessagePart) (t : string) :
  scanParts ps = Some t -> FirstThinkingText ps t.
Proof.
  induction ps as [|part rest IH]; simpl; [done|].
  destruct (isThinkingPart part) eqn:Hthinking.
  - destruct (thinkingText part) as [t'|] eqn:Htext.
    + intros [= ->]. exists [], part, rest. repeat split; try done.
      apply Forall_nil_2.
    + intros Hrest. destruct (IH Hrest) as (b & p & a & -> & Hp & Ht & Hb).
      exists (part :: b), p, a. repeat split; try done.
      apply Forall_cons. split; [by intros _ | done].
  - intros Hrest. destruct (IH Hrest) as (b & p & a & -> & Hp & Ht & Hb).
    exists (part :: b), p, a. repeat split; try done.
    apply Forall_cons. split; [|done]. intros Hp'. congruence.
Qed.

Lemma scanParts_None (ps : list MessagePart) :
  scanParts ps = None -> NoThinkingText ps.
Proof.
  induction ps as [|part rest IH]; simpl; [intros _; apply Forall_nil_2|].
  destruct (isThinkingPart part) eqn:Hthinking.
  - destruct (thinkingText part) eqn:Htext; [done|].
    intros Hrest. apply Forall_cons. split; [by intros _ | by apply IH].
  - intros Hrest. apply Forall_cons. split; [|by apply IH].
    intros Hp. congruence.
Qed.

Lemma take_of_take {A} (l : list A) (n m : nat) :
  n <= m -> take n (take m l) = take n l.
Proof. intros Hle. rewrite take_take. f_equal. lia. Qed.

Lemma take_S_take {A} (i : nat) (l l' : list A) :
  take (S i) l' = take (S i) l -> take i l' = take i l.
Proof.
  intros Heq.
  rewrite <- (take_of_take l i (S i)), <- (take_of_take l' i (S i)) by lia.
  by rewrite Heq.
Qed.

Lemma take_S_lookup {A} (i : nat) (l l' : list A) :
  take (S i) l' = take (S i) l -> l' !! i = l !! i.
Proof.
  intros Heq.
  rewrite <- (lookup_take_lt l (S i) i), <- (lookup_take_lt l' (S i) i) by lia.
  by rewrite Heq.
Qed.

(** The search reads the messages below [currentIndex] and nothing else. *)
Lemma findPreviousThinkingContent_take (i : nat)
    (messages messages' : list MessageWithParts) :
  take i messages' = take i messages ->
  findPreviousThinkingContent messages' i
  = findPreviousThinkingContent messages i.
Proof.
  induction i as [|i IH]; intros Heq; simpl; [done|].
  rewrite (take_S_lookup _ _ _ Heq), (IH (take_S_take _ _ _ Heq)).
  done.
Qed.

Lemma WellFormed_take_lookup (messages : list MessageWithParts) (k j : nat) m :
  WellFormed (take k messages) -> j < k -> messages !! j = Some m ->
  exists info, msg_info m = Some info.
Proof.
  intros Hwf Hj Hm. unfold WellFormed in Hwf. rewrite Forall_lookup in Hwf.
  specialize (Hwf j m). rewrite lookup_take_lt in Hwf by done.
  specialize (Hwf Hm). unfold hasInfo in Hwf.
  destruct (msg_info m) as [info|]; [eauto | done].
Qed.

Lemma WellFormed_take_le (messages : list MessageWithParts) (k i : nat) :
  WellFormed (take k messages) -> i <= k -> WellFormed (take i messages).
Proof.
  intros Hwf Hi. rewrite <- (take_of_take messages i k) by done.
  by apply Forall_take.
Qed.

Lemma OffersNothing_extend (messages : list MessageWithParts) i m :
  messages !! i = Some m -> OffersNothing m ->
  NoEarlierThinking messages i -> NoEarlierThinking messages (S i).
Proof.
  intros Hm Hnothing Hearlier k m' Hk Hm'.
  destruct (decide (k = i)) as [->|Hne].
  - rewrite Hm in Hm'. by injection Hm' as <-.
  - apply (Hearlier k); [lia | done].
Qed.

Lemma MostRecentThinking_extend (messages : list MessageWithParts) i m t :
  messages !! i = Some m -> OffersNothing m ->
  MostRecentThinking messages i t -> MostRecentThinking messages (S i) t.
Proof.
  intros Hm Hnothing (j & mj & Hj & Hmj & Hoffer & Hbetween).
  exists j, mj. repeat split; [lia | done | apply Hoffer | apply Hoffer |].
  intros k m' Hk Hm'. destruct (decide (k = i)) as [->|Hne].
  - rewrite Hm in Hm'. by injection Hm' as <-.
  - apply (Hbetween k); [lia | done].
Qed.

Lemma findPreviousThinkingContent_found (i : nat)
    (messages : list MessageWithParts) :
  i <= length messages -> WellFormed (take i messages) ->
  exists t,
    findPreviousThinkingContent messages i = Normal t
    /\ (MostRecentThinking messages i t
        \/ NoEarlierThinking messages i /\ t = "").
Proof.
  induction i as [|i IH]; intros Hi Hwf.
  - exists "". split; [done|]. right. split; [|done]. intros k m' Hk. lia.
  - destruct (lookup_lt_is_Some_2 messages i) as [msg Hmsg]; [lia|].
    destruct (WellFormed_take_lookup _ _ i msg Hwf) as [info Hinfo]; [lia|done|].
    destruct IH as (t & Hfind & Hwhat);
      [lia | by apply (WellFormed_take_le _ (S i)); [|lia] |].
    assert (Hskip : OffersNothing msg ->
      exists t', findPreviousThinkingContent messages i = Normal t'
        /\ (MostRecentThinking messages (S i) t'
            \/ NoEarlierThinking messages (S i) /\ t' = "")).
    { intros Hnothing. exists t. split; [done|].
      destruct Hwhat as [Hrecent | [Hnone ->]].
      - left. by apply (MostRecentThinking_extend _ _ msg).
      - right. split; [|done]. by apply (OffersNothing_extend _ _ msg). }
    simpl. rewrite Hmsg, Hinfo.
    destruct (Role_eqb (info_role info) assistant) eqn:Hrole; simpl.
    + destruct (msg_parts msg) as [parts|] eqn:Hparts.
      * destruct (scanParts parts) as [thinking|] eqn:Hscan.
        -- exists thinking. split; [done|]. left.
           exists i, msg. repeat split; [lia | done | | | ].
           ++ unfold roleIs. by rewrite Hinfo.
           ++ exists parts. split; [done | by apply scanParts_Some].
           ++ intros k m' Hk. lia.
        -- apply Hskip. intros _ ps Hps. rewrite Hparts in Hps.
           injection Hps as <-. by apply scanParts_None.
      * apply Hskip. intros _ ps Hps. by rewrite Hparts in Hps.
    + apply Hskip. unfold OffersNothing, roleIs. rewrite Hinfo, Hrole. done.
Qed.

End Search.

(** ** The last user message *)

Lemma notUser_inv (m : MessageWithParts) :
  notUser m ->
  exists info, msg_info m = Some info /\ Role_eqb (info_role info) user = false.
Proof.
  unfold notUser, hasInfo, roleIs. intros [Hinfo Hrole].
  destruct (msg_info m) as [info|]; [eauto | done].
Qed.

Lemma lastUserMessage_skip (n : nat) :
  forall (messages : list MessageWithParts) (i : nat),
    i + n <= length messages ->
    (forall j m, i <= j < i + n -> messages !! j = Some m -> notUser m) ->
    lastUserMessage messages (i + n) = lastUserMessage messages i.
Proof.
  induction n as [|n IH]; intros messages i Hlen Hskip.
  - by rewrite Nat.add_0_r.
  - rewrite Nat.add_succ_r. simpl.
    destruct (lookup_lt_is_Some_2 messages (i + n)) as [m Hm]; [lia|].
    destruct (notUser_inv m) as (info & Hinfo & Hrole).
    { apply (Hskip (i + n)); [lia | done]. }
    rewrite Hm, Hinfo, Hrole. apply IH; [lia|].
    intros j m' Hj. apply Hskip. lia.
Qed.

Lemma lastUserMessage_LastUser (messages : list MessageWithParts) u :
  LastUser messages u ->
  lastUserMessage messages (length messages) = Normal u.
Proof.
  destruct u as [m|]; simpl.
  - intros (before & after & -> & Hrole & Hafter).
    rewrite length_app. simpl.
    replace (length before + S (length after))
      with (S (length before) + length after) by lia.
    rewrite lastUserMessage_skip.
    + simpl. rewrite list_lookup_middle by done.
      unfold roleIs in Hrole. destruct (msg_info m) as [info|]; [|done].
      by rewrite Hrole.
    + rewrite length_app. simpl. lia.
    + intros j m' Hj Hm'. rewrite Forall_lookup in Hafter.
      apply (Hafter (j - S (length before))).
      rewrite lookup_app_r in Hm' by lia.
      rewrite lookup_cons_ne_0 in Hm' by lia.
      rewrite <- Hm'. f_equal. lia.
  - intros Hall.
    change (length messages) with (0 + length messages).
    rewrite (lastUserMessage_skip (length messages) messages 0).
    + done.
    + simpl. lia.
    + intros j m' _ Hm'. rewrite Forall_lookup in Hall. by apply (Hall j).
Qed.

(** The scan reads the info records only. *)
Lemma lastUserMessage_infos (messages out : list MessageWithParts) :
  (forall j, msg_info <$> out !! j = msg_info <$> messages !! j) ->
  forall n,
    match lastUserMessage out n, lastUserMessage messages n with
    | Normal u', Normal u => modelIDOf u' = modelIDOf u
    | Throws, Throws => True
    | _, _ => False
    end.
Proof.
  intros Hinfos n. induction n as [|n IH]; simpl; [done|].
  specialize (Hinfos n).
  destruct (out !! n) as [m'|], (messages !! n) as [m|]; simpl in Hinfos;
    try done.
  injection Hinfos as Hinfo. rewrite Hinfo.
  destruct (msg_info m) as [info|] eqn:Hm; [|done].
  destruct (Role_eqb (info_role info) user); [|done].
  simpl. by rewrite Hinfo, Hm.
Qed.

(** ** The repair loop *)

Section Loop.
Context {K : Constants}.

Lemma take_eq_lookup {A} (i : nat) (l l' : list A) :
  (forall j, j < i -> l' !! j = l !! j) -> take i l' = take i l.
Proof.
  intros Hsame. apply list_eq. intros j.
  destruct (decide (j < i)) as [Hj|Hj].
  - rewrite !lookup_take_lt by done. by apply Hsame.
  - rewrite !lookup_take_ge by lia. done.
Qed.

Lemma StopsAt_exists (messages : list MessageWithParts) :
  exists k, StopsAt messages k.
Proof.
  induction messages as [|m messages [k (Hk & Hwf & Hbad)]].
  - exists 0. repeat split; [done | apply Forall_nil_2 | simpl; lia].
  - destruct (msg_info m) as [info|] eqn:Hinfo.
    + exists (S k). repeat split; simpl.
      * lia.
      * apply Forall_cons. split; [|done]. unfold hasInfo. by rewrite Hinfo.
      * intros Hlt. apply Hbad. lia.
    + exists 0. repeat split; simpl; [lia | apply Forall_nil_2 |].
      intros _. by exists m.
Qed.

Lemma StopsAt_length (messages : list MessageWithParts) :
  WellFormed messages -> StopsAt messages (length messages).
Proof.
  intros Hwf. repeat split; [done | by rewrite take_ge | lia].
Qed.

Lemma StopsAt_WellFormed (messages : list MessageWithParts) k :
  WellFormed messages -> StopsAt messages k -> k = length messages.
Proof.
  intros Hwf (Hk & _ & Hbad).
  destruct (decide (k = length messages)) as [|Hne]; [done|].
  destruct Hbad as (bad & Hlookup & Hnone); [lia|].
  unfold WellFormed in Hwf. rewrite Forall_lookup in Hwf.
  by destruct (Hwf k bad Hlookup).
Qed.

(** The stopping index depends on the info records only. *)
Lemma StopsAt_infos (messages out : list MessageWithParts) k :
  length out = length messages ->
  (forall j, msg_info <$> out !! j = msg_info <$> messages !! j) ->
  StopsAt messages k -> StopsAt out k.
Proof.
  intros Hlen Hinfos (Hk & Hwf & Hbad). repeat split.
  - lia.
  - unfold WellFormed. rewrite Forall_lookup. intros j m' Hm'.
    assert (Hj : j < k).
    { apply lookup_take_Some in Hm'. lia. }
    rewrite lookup_take_lt in Hm' by done.
    specialize (Hinfos j). rewrite Hm' in Hinfos.
    destruct (messages !! j) as [m|] eqn:Hm; [|done].
    destruct (WellFormed_take_lookup messages k j m) as [info Hinfo];
      [done..|].
    injection Hinfos as Hsame. unfold hasInfo. by rewrite Hsame, Hinfo.
  - intros Hlt. destruct Hbad as (bad & Hlookup & Hnone); [lia|].
    specialize (Hinfos k). rewrite Hlookup in Hinfos.
    destruct (out !! k) as [bad'|]; [|done].
    exists bad'. split; [done|]. injection Hinfos as Hsame. congruence.
Qed.

Lemma repairLoop_spec (fuel : nat) :
  forall (i : nat) (messages : list MessageWithParts) (k : nat),
    i + fuel = length messages -> StopsAt messages k -> i <= k ->
    exists out,
      repairLoop fuel i messages = (out, completionAt messages k)
      /\ length out = length messages
      /\ (forall j, j < i \/ k <= j -> out !! j = messages !! j)
      /\ (forall j m, i <= j < k -> messages !! j = Some m ->
            exists m', out !! j = Some m' /\ RepairedAt out j m m').
Proof.
  induction fuel as [|fuel IH]; intros i messages k Hlen Hstop Hik.
  - exists messages. destruct Hstop as (Hk & _ & _).
    unfold completionAt. replace (k <? length messages) with false
      by (symmetry; apply Nat.ltb_ge; lia).
    repeat split; try done. intros j m Hj. lia.
  - destruct (lookup_lt_is_Some_2 messages i) as [msg Hmsg]; [lia|].
    simpl. rewrite Hmsg.
    destruct (decide (i = k)) as [->|Hne].
    { destruct Hstop as (Hk & Hwf & Hbad).
      destruct Hbad as (bad & Hlookup & Hnone); [lia|].
      rewrite Hmsg in Hlookup. injection Hlookup as <-. rewrite Hnone.
      exists messages. unfold completionAt.
      replace (k <? length messages) with true
        by (symmetry; apply Nat.ltb_lt; lia).
      repeat split; try done. intros j m Hj. lia. }
    assert (Hlt : i < k) by lia.
    destruct (WellFormed_take_lookup messages k i msg) as [info Hinfo];
      [apply Hstop | done | done |].
    rewrite Hinfo.
    assert (Hkeep : isViolation msg = false ->
      exists out,
        repairLoop fuel (S i) messages = (out, completionAt messages k)
        /\ length out = length messages
        /\ (forall j, j < i \/ k <= j -> out !! j = messages !! j)
        /\ (forall j m, i <= j < k -> messages !! j = Some m ->
              exists m', out !! j = Some m' /\ RepairedAt out j m m')).
    { intros Hv.
      destruct (IH (S i) messages k) as (out & Hrun & Hl & Hsame & Hrep);
        [lia | done | lia |].
      exists out. repeat split; try done.
      - intros j Hj. apply Hsame. lia.
      - intros j m Hj Hm. destruct (decide (j = i)) as [->|Hji].
        + rewrite Hmsg in Hm. injection Hm as <-. exists msg. split.
          * rewrite Hsame by lia. done.
          * by left.
        + apply Hrep; [lia | done]. }
    destruct (Role_eqb (info_role info) assistant) eqn:Hrole; simpl.
    + destruct (hasContentParts (msg_parts msg)
                && negb (startsWithThinkingBlock (msg_parts msg))) eqn:Hcheck.
      * assert (Hv : isViolation msg = true).
        { unfold isViolation, roleIs. rewrite Hinfo, Hrole. simpl. done. }
        destruct (findPreviousThinkingContent_found i messages)
          as (previous & Hfind & _).
        { lia. }
        { apply (WellFormed_take_le _ k); [apply Hstop | lia]. }
        rewrite Hfind. unfold prependThinkingBlock. rewrite Hinfo.
        set (content := if truthy previous then previous
                        else DEFAULT_THINKING_CONTENT).
        fold (partsOf msg). fold (repairedMessage info content msg).
        set (msg' := repairedMessage info content msg).
        assert (Hinfos : forall j,
                  msg_info <$> <[i:=msg']> messages !! j
                  = msg_info <$> messages !! j).
        { intros j. destruct (decide (j = i)) as [->|Hji].
          - rewrite list_lookup_insert_eq by lia.
            rewrite Hmsg. simpl. by rewrite Hinfo.
          - by rewrite list_lookup_insert_ne. }
        destruct (IH (S i) (<[i:=msg']> messages) k)
          as (out & Hrun & Hl & Hsame & Hrep).
        { rewrite length_insert. lia. }
        { apply (StopsAt_infos messages); [apply length_insert|done..]. }
        { lia. }
        rewrite length_insert in Hl.
        unfold completionAt in Hrun. rewrite length_insert in Hrun.
        exists out. repeat split; try done.
        -- intros j Hj. rewrite Hsame by lia.
           apply list_lookup_insert_ne. lia.
        -- intros j m Hj Hm. destruct (decide (j = i)) as [->|Hji].
           ++ rewrite Hmsg in Hm. injection Hm as <-. exists msg'. split.
              ** rewrite Hsame by lia. apply list_lookup_insert_eq. lia.
              ** right. split; [done|]. exists info, previous.
                 repeat split; try done. rewrite <- Hfind.
                 apply findPreviousThinkingContent_take, take_eq_lookup.
                 intros j Hj'. rewrite Hsame by lia.
                 apply list_lookup_insert_ne. lia.
           ++ apply Hrep; [lia|]. by rewrite list_lookup_insert_ne.
      * apply Hkeep. unfold isViolation, roleIs.
        rewrite Hinfo, Hrole. simpl. done.
    + apply Hkeep. unfold isViolation, roleIs. by rewrite Hinfo, Hrole.
Qed.

End Loop.

(** ** The transform *)

Section Transform.
Context {K : Constants}.

Lemma transform_cases (messages : list MessageWithParts) :
  (exists c, transform messages = (messages, c))
  \/ ((length messages =? 0) = false
      /\ exists u,
           lastUserMessage messages (length messages) = Normal u
           /\ isExtendedThinkingModel (modelIDOf u) = true
           /\ transform messages = repairLoop (length messages) 0 messages).
Proof.
  unfold transform. destruct (length messages =? 0) eqn:Hempty; [eauto|].
  destruct (lastUserMessage messages (length messages)) as [u|]; [|eauto].
  destruct (isExtendedThinkingModel (modelIDOf u)) eqn:Hmodel; simpl.
  - right. split; [done|]. by exists u.
  - eauto.
Qed.

Lemma PassUpTo_refl (messages : list MessageWithParts) :
  PassUpTo 0 messages messages.
Proof. repeat split; try done. intros j m Hj. lia. Qed.

Lemma repairLoop_PassUpTo (messages : list MessageWithParts) k :
  StopsAt messages k ->
  exists out,
    repairLoop (length messages) 0 messages = (out, completionAt messages k)
    /\ PassUpTo k messages out.
Proof.
  intros Hstop.
  destruct (repairLoop_spec (length messages) 0 messages k)
    as (out & Hrun & Hl & Hsame & Hrep); [done | done | lia |].
  exists out. split; [done|]. repeat split; [done | |].
  - intros j Hj. apply Hsame. by right.
  - intros j m Hj. apply Hrep. lia.
Qed.

(** Whatever the conversation, what the transform leaves behind is the
    result of a pass up to some index. *)
Lemma transform_pass (messages : list MessageWithParts) :
  exists out c k, transform messages = (out, c) /\ PassUpTo k messages out.
Proof.
  destruct (transform_cases messages) as [[c Hnoop] | (_ & u & _ & _ & Hrun)].
  - exists messages, c, 0. split; [done | apply PassUpTo_refl].
  - destruct (StopsAt_exists messages) as [k Hstop].
    destruct (repairLoop_PassUpTo messages k Hstop) as (out & Hloop & Hpass).
    exists out, (completionAt messages k), k. split; [congruence | done].
Qed.

Lemma Enforcing_nonempty (messages : list MessageWithParts) :
  Enforcing messages -> (length messages =? 0) = false.
Proof.
  intros (u & (before & after & -> & _) & _).
  rewrite length_app. simpl. apply Nat.eqb_neq. lia.
Qed.

Lemma transform_Enforcing (messages : list MessageWithParts) k :
  Enforcing messages -> StopsAt messages k ->
  exists out,
    transform messages = (out, completionAt messages k)
    /\ PassUpTo k messages out.
Proof.
  intros Henf Hstop.
  destruct (repairLoop_PassUpTo messages k Hstop) as (out & Hloop & Hpass).
  exists out. split; [|done]. unfold transform.
  rewrite (Enforcing_nonempty _ Henf). destruct Henf as (u & Hlast & Hmodel).
  rewrite (lastUserMessage_LastUser _ _ Hlast), Hmodel. done.
Qed.

Lemma completionAt_length (messages : list MessageWithParts) :
  completionAt messages (length messages) = Normal tt.
Proof. unfold completionAt. by rewrite Nat.ltb_irrefl. Qed.

(** What a pass does to the message at one index. *)
Lemma PassUpTo_lookup k (messages out : list MessageWithParts) j m :
  PassUpTo k messages out -> messages !! j = Some m ->
  exists m',
    out !! j = Some m'
    /\ (m' = m
        \/ exists info content,
             isViolation m = true /\ msg_info m = Some info
             /\ m' = repairedMessage info content m).
Proof.
  intros (Hl & Hsame & Hrep) Hm. destruct (decide (j < k)) as [Hj|Hj].
  - destruct (Hrep j m Hj Hm) as (m' & Hm' & [[_ ->] | (Hv & info & p & Hi & _ & ->)]).
    + exists m. auto.
    + eexists. split; [done|]. right. eauto.
  - exists m. split; [|by left]. rewrite Hsame by lia. done.
Qed.

Lemma PassUpTo_infos k (messages out : list MessageWithParts) :
  PassUpTo k messages out ->
  forall j, msg_info <$> out !! j = msg_info <$> messages !! j.
Proof.
  intros Hpass j. destruct (messages !! j) as [m|] eqn:Hm.
  - destruct (PassUpTo_lookup _ _ _ _ _ Hpass Hm)
      as (m' & -> & [-> | (info & content & _ & Hinfo & ->)]); [done|].
    simpl. by rewrite Hinfo.
  - destruct Hpass as (Hl & _ & _). apply lookup_ge_None in Hm.
    rewrite (proj2 (lookup_ge_None out j)) by lia. done.
Qed.

Lemma PassUpTo_not_violating k (messages out : list MessageWithParts) j m' :
  In "thinking" THINKING_PART_TYPES ->
  PassUpTo k messages out -> j < k -> out !! j = Some m' ->
  isViolation m' = false.
Proof.
  intros Hthinking (Hl & Hsame & Hrep) Hj Hm'.
  destruct (lookup_lt_is_Some_2 messages j) as [m Hm].
  { rewrite <- Hl. by apply lookup_lt_is_Some_1; eexists. }
  destruct (Hrep j m Hj Hm) as (m'' & Hm'' & Hcase).
  rewrite Hm' in Hm''. injection Hm'' as <-.
  destruct Hcase as [[Hv ->] | (_ & info & previous & _ & _ & ->)]; [done|].
  by apply isViolation_repairedMessage.
Qed.

Lemma nonThinkingParts_repairedMessage info content m :
  In "thinking" THINKING_PART_TYPES ->
  nonThinkingParts (partsOf (repairedMessage info content m))
  = nonThinkingParts (partsOf m).
Proof.
  intros Hthinking. unfold nonThinkingParts, partsOf. simpl.
  by rewrite (isThinkingPart_thinkingPart info content Hthinking).
Qed.

End Transform.

(** ** Properties of the whole-conversation driver *)

Section Driver.
Context {K : Constants}.

(** C1. On a conversation whose messages carry their info record and whose
    most recent user message names an enforcing model, the transform returns
    normally, and what it leaves is the conversation it was given, message
    by message: the same number of messages, each with its info record and
    with its parts as they were or with one part put in front, and, however
    many messages were in violation, every assistant message that has
    content (before the pass or after it) starts with a thinking-like part
    afterwards.  The part the repair inserts has type "thinking", which the
    table of thinking-like types is taken to list. *)
Theorem transform_establishes_invariant (messages : list MessageWithParts) :
  In "thinking" THINKING_PART_TYPES ->
  WellFormed messages -> Enforcing messages ->
  exists out,
    transform messages = (out, Normal tt)
    /\ length out = length messages
    /\ (forall j m,
          messages !! j = Some m ->
          exists m',
            out !! j = Some m'
            /\ msg_info m' = msg_info m
            /\ (m' = m \/ exists part, msg_parts m' = Some (part :: partsOf m))
            /\ (roleIs assistant m = true ->
                hasContentParts (msg_parts m) = true ->
                startsWithThinkingBlock (msg_parts m') = true))
    /\ InvariantHolds out.
Proof.
  intros Hthinking Hwf Henf.
  destruct (transform_Enforcing messages (length messages) Henf
              (StopsAt_length _ Hwf)) as (out & Hrun & Hpass).
  rewrite completionAt_length in Hrun. exists out. split; [done|].
  assert (Hl : length out = length messages) by apply Hpass.
  split; [done|]. split.
  - intros j m Hm.
    assert (Hj : j < length messages)
      by (by apply lookup_lt_is_Some_1; eexists).
    destruct Hpass as (_ & _ & Hrep).
    destruct (Hrep j m Hj Hm)
      as (m' & Hm' & [[Hv ->] | (Hv & info & p & Hinfo & _ & ->)]).
    + exists m. repeat split; auto.
      by apply isViolation_false_invariant.
    + eexists. split; [done|]. repeat split.
      * by rewrite Hinfo.
      * right. by eexists.
      * intros _ _. simpl. by apply isThinkingPart_thinkingPart.
  - unfold InvariantHolds. rewrite Forall_lookup. intros j m' Hm'.
    apply isViolation_false_invariant.
    apply (PassUpTo_not_violating (length messages) messages out j);
      try done.
    rewrite <- Hl. by apply lookup_lt_is_Some_1; eexists.
Qed.

(** C2. The transform is idempotent: run on the conversation a first run
    left behind, it leaves the same conversation and ends the same way.  On
    the second run no message the first one went through is in violation. *)
Theorem transform_idempotent (messages : list MessageWithParts) :
  In "thinking" THINKING_PART_TYPES ->
  transform (transform messages).1 = transform messages.
Proof.
  intros Hthinking.
  destruct (transform_cases messages)
    as [[c Hnoop] | (Hnonempty & u & Hlast & Hmodel & Hrun)].
  { by rewrite Hnoop. }
  destruct (StopsAt_exists messages) as [k Hstop].
  destruct (repairLoop_PassUpTo messages k Hstop) as (out & Hloop & Hpass).
  rewrite Hrun, Hloop. simpl.
  pose proof (PassUpTo_infos _ _ _ Hpass) as Hinfos.
  assert (Hl : length out = length messages) by apply Hpass.
  assert (Hstop' : StopsAt out k) by by apply (StopsAt_infos messages).
  destruct (repairLoop_PassUpTo out k Hstop') as (out' & Hloop' & Hpass').
  assert (Hsame : out' = out).
  { apply list_eq. intros j. destruct Hpass' as (Hl' & Hkeep & Hrep).
    destruct (decide (j < k)) as [Hj|Hj]; [|apply Hkeep; lia].
    destruct (out !! j) as [m'|] eqn:Hm'.
    - destruct (Hrep j m' Hj Hm') as (m'' & -> & [[_ ->] | [Hv _]]); [done|].
      rewrite (PassUpTo_not_violating _ _ _ _ _ Hthinking Hpass Hj Hm') in Hv.
      done.
    - apply lookup_ge_None. rewrite Hl'. by apply lookup_ge_None. }
  unfold transform. rewrite Hl, Hnonempty.
  pose proof (lastUserMessage_infos messages out Hinfos (length messages))
    as Hscan.
  rewrite Hlast in Hscan.
  destruct (lastUserMessage out (length messages)) as [u'|]; [|done].
  rewrite Hscan, Hmodel. simpl. rewrite <- Hl, Hloop', Hsame.
  unfold completionAt. by rewrite Hl.
Qed.

(** C7. A repair builds a new part of type "thinking" that carries the
    supplied content, the fixed synthetic identifier, the session identifier
    of the owning message (the empty string when it has none), its message
    identifier and the synthetic mark, and puts it in front of the parts of
    that message.  Over a whole conversation the transform keeps the number
    and order of the messages and their info records; each message is left
    as it was or has gained exactly that leading part, so its non-thinking
    parts are the same sequence before and after. *)
Theorem repair_frame :
  In "thinking" THINKING_PART_TYPES ->
  (forall m info content,
     msg_info m = Some info ->
     exists part,
       prependThinkingBlock m content
       = ({| msg_info := Some info;
             msg_parts := Some (part :: partsOf m) |}, Normal tt)
       /\ part_type part = "thinking"
       /\ part_thinking part = Some content
       /\ part_id part = Some SYNTHETIC_THINKING_ID_PREFIX
       /\ part_sessionID part
          = Some match info_sessionID info with
                 | Some s => s
                 | None => ""
                 end
       /\ part_messageID part = Some (info_id info)
       /\ part_synthetic part = Some true)
  /\ (forall messages,
        length (transform messages).1 = length messages
        /\ forall j m,
             messages !! j = Some m ->
             exists m',
               (transform messages).1 !! j = Some m'
               /\ msg_info m' = msg_info m
               /\ (m' = m
                   \/ exists part,
                        msg_parts m' = Some (part :: partsOf m)
                        /\ part_synthetic part = Some true)
               /\ nonThinkingParts (partsOf m')
                  = nonThinkingParts (partsOf m)).
Proof.
  intros Hthinking. split.
  - intros m info content Hinfo. exists (thinkingPart info content).
    unfold prependThinkingBlock. rewrite Hinfo. repeat split.
    simpl. destruct (info_sessionID info) as [[|c s]|]; done.
  - intros messages.
    destruct (transform_pass messages) as (out & c & k & -> & Hpass).
    simpl. split; [apply Hpass|]. intros j m Hm.
    destruct (PassUpTo_lookup _ _ _ _ _ Hpass Hm)
      as (m' & Hm' & [-> | (info & content & _ & Hinfo & ->)]).
    + exists m. repeat split; auto.
    + eexists. split; [done|]. repeat split.
      * by rewrite Hinfo.
      * right. by eexists.
      * by apply nonThinkingParts_repairedMessage.
Qed.

(** C8. When the conversation has no user message, or the model named by
    its most recent user message is not an enforcing one, the transform
    returns at once: the conversation is left exactly as it was and the
    call ends normally. *)
Theorem transform_noop_when_not_enforcing
    (messages : list MessageWithParts) (u : option MessageWithParts) :
  LastUser messages u ->
  u = None \/ isExtendedThinkingModel (modelIDOf u) = false ->
  transform messages = (messages, Normal tt).
Proof.
  intros Hlast Hmodel.
  assert (Hoff : isExtendedThinkingModel (modelIDOf u) = false).
  { destruct Hmodel as [-> | Hoff]; done. }
  unfold transform. destruct (length messages =? 0); [done|].
  by rewrite (lastUserMessage_LastUser _ _ Hlast), Hoff.
Qed.

Lemma lastUserMessage_total (messages : list MessageWithParts) (n : nat) :
  WellFormed messages -> n <= length messages ->
  exists u, lastUserMessage messages n = Normal u.
Proof.
  intros Hwf. induction n as [|n IH]; intros Hn; simpl; [eauto|].
  destruct (lookup_lt_is_Some_2 messages n) as [m Hm]; [lia|].
  destruct (WellFormed_take_lookup messages (length messages) n m)
    as [info Hinfo]; [by rewrite take_ge | lia | done |].
  rewrite Hm, Hinfo. destruct (Role_eqb (info_role info) user); [eauto|].
  apply IH. lia.
Qed.

(** C10. A missing parts array makes both checks answer [false], so the
    message is not a violation; the transform leaves such a message as it
    is, wherever it stands and whatever else the conversation holds, and on
    a conversation whose messages carry their info record it returns
    normally.  The repair itself, given a message without parts, starts
    from the empty array. *)
Theorem missing_parts_are_harmless :
  hasContentParts None = false
  /\ startsWithThinkingBlock None = false
  /\ (forall m, msg_parts m = None -> isViolation m = false)
  /\ (forall messages j m,
        messages !! j = Some m -> msg_parts m = None ->
        (transform messages).1 !! j = Some m)
  /\ (forall messages,
        WellFormed messages -> (transform messages).2 = Normal tt)
  /\ (forall m info content,
        msg_info m = Some info -> msg_parts m = None ->
        prependThinkingBlock m content
        = ({| msg_info := Some info;
              msg_parts := Some [thinkingPart info content] |}, Normal tt)).
Proof.
  assert (Hnone : forall m, msg_parts m = None -> isViolation m = false).
  { intros m Hparts. unfold isViolation. rewrite Hparts. simpl.
    by rewrite andb_false_r. }
  repeat split; try done.
  - intros messages j m Hm Hparts.
    destruct (transform_pass messages) as (out & c & k & -> & Hpass).
    destruct (PassUpTo_lookup _ _ _ _ _ Hpass Hm)
      as (m' & Hm' & [-> | (info & content & Hv & _)]); [done|].
    by rewrite (Hnone m Hparts) in Hv.
  - intros messages Hwf.
    destruct (transform_cases messages)
      as [[c Hnoop] | (_ & u & _ & _ & Hrun)].
    + revert Hnoop. unfold transform.
      destruct (length messages =? 0); [by intros [= <-]|].
      destruct (lastUserMessage_total messages (length messages) Hwf)
        as [u ->]; [done|].
      destruct (isExtendedThinkingModel (modelIDOf u)); simpl.
      * destruct (repairLoop_PassUpTo messages _ (StopsAt_length _ Hwf))
          as (out & -> & _).
        rewrite completionAt_length. by intros [= _ <-].
      * by intros [= <-].
    + destruct (repairLoop_PassUpTo messages _ (StopsAt_length _ Hwf))
        as (out & Hloop & _).
      by rewrite Hrun, Hloop, completionAt_length.
  - intros m info content Hinfo Hparts.
    unfold prependThinkingBlock. by rewrite Hinfo, Hparts.
Qed.

End Driver.

(** ** The content of the synthetic part *)

Section Content.
Context {K : Constants}.

Lemma thinkingText_truthy (part : MessagePart) (t : string) :
  thinkingText part = Some t -> truthy t = true.
Proof.
  unfold thinkingText.
  destruct (match part_thinking part with
            | Some t0 => if truthy t0 then Some t0 else part_text part
            | None => part_text part
            end) as [t'|]; [|done].
  destruct (truthy t') eqn:Ht; simpl; [|done].
  destruct (0 <? String.length (trim t')); [|done].
  by intros [= <-].
Qed.

Lemma thinkingText_thinkingPart info (content t : string) :
  thinkingText (thinkingPart info content) = Some t -> t = content.
Proof.
  unfold thinkingText. simpl.
  destruct (truthy content) eqn:Hcontent; simpl; [|done].
  rewrite Hcontent. simpl.
  destruct (0 <? String.length (trim content)); [|done].
  by intros [= <-].
Qed.

Lemma scanParts_FirstThinkingText (ps : list MessagePart) (t : string) :
  FirstThinkingText ps t -> scanParts ps = Some t.
Proof.
  intros (before & part & after & -> & Hpart & Htext & Hbefore).
  induction Hbefore as [|p before Hp _ IH]; simpl.
  - by rewrite Hpart, Htext.
  - destruct (isThinkingPart p); [|done]. by rewrite Hp.
Qed.

Lemma FirstThinkingText_unique (ps : list MessagePart) (t t' : string) :
  FirstThinkingText ps t -> FirstThinkingText ps t' -> t = t'.
Proof.
  intros Ht Ht'. apply scanParts_FirstThinkingText in Ht, Ht'. congruence.
Qed.

Lemma scanParts_NoThinkingText (ps : list MessagePart) :
  NoThinkingText ps -> scanParts ps = None.
Proof.
  intros Hnone. induction Hnone as [|p ps Hp _ IH]; simpl; [done|].
  destruct (isThinkingPart p); [|done]. by rewrite Hp.
Qed.

Lemma Offers_contradiction (m : MessageWithParts) (t : string) :
  OffersThinking m t -> OffersNothing m -> False.
Proof.
  intros (Hrole & ps & Hps & Hfirst) Hnothing.
  specialize (Hnothing Hrole ps Hps).
  apply scanParts_FirstThinkingText in Hfirst.
  apply scanParts_NoThinkingText in Hnothing. congruence.
Qed.

Lemma OffersThinking_unique (m : MessageWithParts) (t t' : string) :
  OffersThinking m t -> OffersThinking m t' -> t = t'.
Proof.
  intros (_ & ps & Hps & Hfirst) (_ & ps' & Hps' & Hfirst').
  rewrite Hps in Hps'. injection Hps' as <-.
  by apply (FirstThinkingText_unique ps).
Qed.

Lemma OffersThinking_truthy (m : MessageWithParts) (t : string) :
  OffersThinking m t -> truthy t = true.
Proof.
  intros (_ & ps & _ & before & part & after & _ & _ & Htext & _).
  by apply (thinkingText_truthy part).
Qed.

Lemma isViolation_inv (m : MessageWithParts) :
  isViolation m = true ->
  roleIs assistant m = true /\ exists ps, msg_parts m = Some ps.
Proof.
  unfold isViolation. intros Hv.
  apply andb_true_iff in Hv as [Hv _]. apply andb_true_iff in Hv as [Hr Hc].
  split; [done|]. destruct (msg_parts m) as [ps|]; [eauto | done].
Qed.

(** What a repaired message offers is the text of its synthetic part, or
    what the message offered before the repair. *)
Lemma OffersThinking_repairedMessage info content m (t : string) :
  isViolation m = true ->
  OffersThinking (repairedMessage info content m) t ->
  t = content \/ OffersThinking m t.
Proof.
  intros Hv (_ & ps & [= <-] & before & part & after & Hsplit & Hp & Ht & Hb).
  destruct before as [|p before]; simpl in Hsplit; injection Hsplit as <- Hrest.
  - left. by apply (thinkingText_thinkingPart info).
  - right. destruct (isViolation_inv m Hv) as (Hrole & ps & Hps).
    split; [done|]. exists ps. split; [done|].
    unfold partsOf in Hrest. rewrite Hps in Hrest.
    exists before, part, after. repeat split; try done.
    by apply Forall_cons in Hb as [_ Hb].
Qed.

Lemma chosenContent_default :
  chosenContent DEFAULT_THINKING_CONTENT = DEFAULT_THINKING_CONTENT.
Proof. unfold chosenContent. by destruct (truthy _). Qed.

(** The content a full pass gives the synthetic parts, read off the
    conversation as it was before the pass. *)
Lemma content_from_input (messages out : list MessageWithParts) :
  WellFormed messages -> PassUpTo (length messages) messages out ->
  forall i previous,
    i <= length messages ->
    findPreviousThinkingContent out i = Normal previous ->
    (NoEarlierThinking messages i ->
     chosenContent previous = DEFAULT_THINKING_CONTENT)
    /\ (forall t, MostRecentCompliantThinking messages i t -> previous = t).
Proof.
  intros Hwf Hpass.
  assert (Hwf' : WellFormed out).
  { destruct (StopsAt_infos messages out (length messages))
      as (_ & Hall & _);
      [apply Hpass | by apply (PassUpTo_infos (length messages))
       | by apply StopsAt_length |].
    rewrite take_ge in Hall; [done|]. destruct Hpass as (-> & _). done. }
  assert (Hl : length out = length messages) by apply Hpass.
  assert (Hkept : forall j m, messages !! j = Some m ->
                    isViolation m = false -> out !! j = Some m).
  { intros j m Hm Hv.
    destruct (PassUpTo_lookup _ _ _ _ _ Hpass Hm)
      as (m' & Hm' & [-> | (? & ? & Hv' & _)]); [done | congruence]. }
  intros i. induction i as [i IH] using lt_wf_ind.
  intros previous Hi Hfind.
  destruct (findPreviousThinkingContent_found i out)
    as (previous' & Hfind' & Hwhat);
    [lia | by apply Forall_take |].
  rewrite Hfind in Hfind'. injection Hfind' as <-.
  destruct Hwhat as [(j' & mj' & Hj' & Hmj' & Hoffer & Hbetween) | [Hnone ->]].
  2:{ split; [done|].
      intros t (j & m & Hj & Hm & Hoffer & Hv & _). exfalso.
      apply (Offers_contradiction m t Hoffer).
      apply (Hnone j); [done | by apply Hkept]. }
  destruct (lookup_lt_is_Some_2 messages j') as [m0 Hm0]; [lia|].
  destruct Hpass as (_ & _ & Hrep).
  destruct (Hrep j' m0 ltac:(lia) Hm0) as (m'' & Hm'' & Hcase).
  rewrite Hmj' in Hm''. injection Hm'' as <-.
  assert (Hinput : OffersThinking m0 previous ->
    (NoEarlierThinking messages i ->
     chosenContent previous = DEFAULT_THINKING_CONTENT)
    /\ (forall t, MostRecentCompliantThinking messages i t -> previous = t)).
  { intros Hoffer0. split.
    - intros Hnone. exfalso. apply (Offers_contradiction m0 previous Hoffer0).
      by apply (Hnone j').
    - intros t (j & m & Hj & Hm & Hoffert & Hv & Hbetween0).
      destruct (lt_eq_lt_dec j j') as [[Hlt | ->] | Hgt].
      + exfalso. apply (Offers_contradiction m0 previous Hoffer0).
        apply (Hbetween0 j'); [lia | done].
      + rewrite Hm0 in Hm. injection Hm as <-.
        by apply (OffersThinking_unique m0).
      + exfalso. apply (Offers_contradiction m t Hoffert).
        apply (Hbetween j); [lia | by apply Hkept]. }
  destruct Hcase as [[Hv ->] | (Hv & info & p' & Hinfo & Hfind0 & ->)].
  { by apply Hinput. }
  destruct (OffersThinking_repairedMessage _ _ _ _ Hv Hoffer)
    as [-> | Hoffer0]; [|by apply Hinput].
  destruct (IH j' Hj' p' ltac:(lia) Hfind0) as [IHnone IHrecent].
  fold (chosenContent p'). split.
  - intros Hnone. rewrite IHnone; [apply chosenContent_default|].
    intros k m' Hk. apply Hnone. lia.
  - intros t (j & m & Hj & Hm & Hoffert & Hvm & Hbetween0).
    destruct (lt_eq_lt_dec j j') as [[Hlt | ->] | Hgt].
    + rewrite (IHrecent t).
      * unfold chosenContent. by rewrite (OffersThinking_truthy m t).
      * exists j, m. repeat split; try done; try apply Hoffert.
        intros k m' Hk. apply Hbetween0. lia.
    + rewrite Hm0 in Hm. injection Hm as <-. congruence.
    + exfalso. apply (Offers_contradiction m t Hoffert).
      apply (Hbetween j); [lia | by apply Hkept].
Qed.

(** C6 (amended). The synthetic part of a repaired message carries the text
    the backward search finds in the conversation as the pass has left it
    so far: the first non-empty thinking text of the most recent earlier
    assistant message that has one, a message repaired earlier in the pass
    starting with its own synthetic part; the default placeholder when no
    earlier message has one.  In terms of the conversation as it was handed
    in: the placeholder when no earlier assistant message has a non-empty
    thinking text, and the text of the most recent one that has when that
    message is not itself in violation. *)
Theorem repair_content (messages : list MessageWithParts) (j : nat)
    (m : MessageWithParts) :
  WellFormed messages -> Enforcing messages ->
  messages !! j = Some m -> isViolation m = true ->
  exists out info content,
    transform messages = (out, Normal tt)
    /\ msg_info m = Some info
    /\ out !! j = Some (repairedMessage info content m)
    /\ (MostRecentThinking out j content
        \/ NoEarlierThinking out j /\ content = DEFAULT_THINKING_CONTENT)
    /\ (NoEarlierThinking messages j -> content = DEFAULT_THINKING_CONTENT)
    /\ (forall t, MostRecentCompliantThinking messages j t -> content = t).
Proof.
  intros Hwf Henf Hm Hv.
  destruct (transform_Enforcing messages (length messages) Henf
              (StopsAt_length _ Hwf)) as (out & Hrun & Hpass).
  rewrite completionAt_length in Hrun.
  assert (Hj : j < length messages) by (by apply lookup_lt_is_Some_1; eexists).
  pose proof Hpass as (Hl & _ & Hrep).
  destruct (Hrep j m Hj Hm)
    as (m' & Hm' & [[Hv' _] | (_ & info & previous & Hinfo & Hfind & ->)]);
    [congruence|].
  fold (chosenContent previous) in *.
  exists out, info, (chosenContent previous). repeat split; try done.
  - destruct (findPreviousThinkingContent_found j out)
      as (previous' & Hfind' & Hwhat).
    { lia. }
    { destruct (StopsAt_infos messages out (length messages))
        as (_ & Hall & _);
        [done | by apply (PassUpTo_infos (length messages))
         | by apply StopsAt_length |].
      apply (WellFormed_take_le _ (length messages)); [done | lia]. }
    rewrite Hfind in Hfind'. injection Hfind' as <-.
    destruct Hwhat as [Hrecent | [Hnone ->]].
    + left. unfold chosenContent.
      destruct Hrecent as (j' & mj' & Hj' & Hmj' & Hoffer & Hbetween).
      rewrite (OffersThinking_truthy mj' previous Hoffer).
      by exists j', mj'.
    + right. done.
  - intros Hnone.
    by apply (content_from_input messages out Hwf Hpass j previous);
      [lia|..].
  - intros t Hrecent.
    destruct (content_from_input messages out Hwf Hpass j previous)
      as [_ Hreuse]; [lia | done |].
    rewrite (Hreuse t Hrecent). unfold chosenContent.
    destruct Hrecent as (j' & mj' & _ & _ & Hoffer & _).
    by rewrite (OffersThinking_truthy mj' t Hoffer).
Qed.

End Content.

(** ** Failure in the middle of a pass *)

Section Failure.
Context {K : Constants}.

(** C9 (amended). The transform has no rollback.  With an enforcing model,
    the pass runs up to the first message that lacks its info record: on a
    conversation where every message has one it goes through the whole
    array and returns normally; otherwise it throws at that message, the
    messages before it keep their repairs, and that message and the later
    ones are left as they were. *)
Theorem transform_no_rollback (messages : list MessageWithParts) (k : nat) :
  Enforcing messages -> StopsAt messages k ->
  exists out,
    transform messages
    = (out, if k <? length messages then Throws else Normal tt)
    /\ length out = length messages
    /\ (forall j, k <= j -> out !! j = messages !! j)
    /\ (forall j m, j < k -> messages !! j = Some m ->
          exists m', out !! j = Some m' /\ RepairedAt out j m m')
    /\ (WellFormed messages -> k = length messages).
Proof.
  intros Henf Hstop.
  destruct (transform_Enforcing messages k Henf Hstop)
    as (out & Hrun & Hl & Hkeep & Hrep).
  exists out. repeat split; try done.
  intros Hwf. by apply StopsAt_WellFormed.
Qed.

End Failure.

(** ** The sample conversations *)

Lemma reference_thinking_listed :
  In "thinking" (THINKING_PART_TYPES (Constants := referenceConstants)).
Proof. by left. Qed.

Lemma WellFormed_twoViolations : WellFormed twoViolations.
Proof. repeat constructor; discriminate. Qed.

Lemma Enforcing_twoViolations : Enforcing twoViolations.
Proof.
  exists (sampleUser "msg_2" "claude-opus-4-thinking"). split; [|reflexivity].
  exists [sampleAssistant "msg_1" [samplePart "tool_use"]],
         [sampleAssistant "msg_3" [samplePart "text"; samplePart "tool"]].
  repeat split; try reflexivity.
  repeat constructor. discriminate.
Qed.

Lemma WellFormed_scenarioC : WellFormed scenarioC.
Proof. repeat constructor; discriminate. Qed.

Lemma Enforcing_scenarioC : Enforcing scenarioC.
Proof.
  exists (sampleUser "msg_1" "claude-opus-4-thinking"). split; [|reflexivity].
  exists [], (tail scenarioC). repeat split; try reflexivity.
  repeat constructor; discriminate.
Qed.

Lemma Enforcing_brokenInTheMiddle : Enforcing brokenInTheMiddle.
Proof.
  exists (sampleUser "msg_4" "claude-opus-4-thinking"). split; [|reflexivity].
  exists (take 3 brokenInTheMiddle), []. repeat split; try reflexivity.
  constructor.
Qed.

Lemma StopsAt_brokenInTheMiddle : StopsAt brokenInTheMiddle 1.
Proof.
  repeat split.
  - simpl. lia.
  - repeat constructor. discriminate.
  - intros _. by eexists.
Qed.

(** Scenario A of the specification. *)
Example scenarioA :
  transform (K := referenceConstants)
    [ sampleUser "msg_1" "claude-opus-4-thinking";
      sampleAssistant "msg_2" [samplePart "tool_use"] ]
  = ([ sampleUser "msg_1" "claude-opus-4-thinking";
       sampleAssistant "msg_2"
         [ mkPart "thinking" (Some "prt_0000000000_synthetic_thinking")
             (Some "ses_1") (Some "msg_2")
             (Some "[Continuing from previous reasoning]") None (Some true) [];
           samplePart "tool_use" ] ],
     Normal tt).
Proof. reflexivity. Qed.

(** Scenario D of the specification: an assistant turn with no parts. *)
Example scenarioD :
  transform (K := referenceConstants)
    [ sampleUser "msg_1" "claude-opus-4-thinking";
      sampleAssistant "msg_2" [] ]
  = ([ sampleUser "msg_1" "claude-opus-4-thinking";
       sampleAssistant "msg_2" [] ],
     Normal tt).
Proof. reflexivity. Qed.

(** A turn without a parts array stays as it is; the violating turn next to
    it is repaired. *)
Example missingParts_run :
  transform (K := referenceConstants) missingParts
  = ([ mkMessage (Some (mkInfo "msg_1" assistant None None)) None;
       sampleAssistant "msg_2"
         [ mkPart "thinking" (Some "prt_0000000000_synthetic_thinking")
             (Some "ses_1") (Some "msg_2")
             (Some "[Continuing from previous reasoning]") None (Some true) [];
           samplePart "tool_use" ];
       sampleUser "msg_3" "claude-3-7-sonnet" ],
     Normal tt).
Proof. reflexivity. Qed.

Lemma transform_establishes_invariant_witness :
  exists out,
    transform (K := referenceConstants) twoViolations = (out, Normal tt)
    /\ length out = 3
    /\ (forall j m,
          twoViolations !! j = Some m ->
          exists m',
            out !! j = Some m'
            /\ msg_info m' = msg_info m
            /\ (m' = m \/ exists part, msg_parts m' = Some (part :: partsOf m))
            /\ (roleIs assistant m = true ->
                hasContentParts (K := referenceConstants) (msg_parts m) = true ->
                startsWithThinkingBlock (K := referenceConstants)
                  (msg_parts m') = true))
    /\ InvariantHolds (K := referenceConstants) out.
Proof.
  apply (transform_establishes_invariant (K := referenceConstants)
           twoViolations).
  - apply reference_thinking_listed.
  - apply WellFormed_twoViolations.
  - apply Enforcing_twoViolations.
Defined.

Lemma transform_idempotent_witness :
  transform (K := referenceConstants)
    (transform (K := referenceConstants) twoViolations).1
  = transform (K := referenceConstants) twoViolations.
Proof.
  apply (transform_idempotent (K := referenceConstants)).
  apply reference_thinking_listed.
Defined.

Lemma repair_content_witness :
  exists out info content,
    transform (K := referenceConstants) scenarioC = (out, Normal tt)
    /\ Some (mkInfo "msg_3" assistant (Some "ses_1") None) = Some info
    /\ out !! 2
       = Some (repairedMessage (K := referenceConstants) info content
                 (sampleAssistant "msg_3" [samplePart "tool_use"]))
    /\ (MostRecentThinking (K := referenceConstants) out 2 content
        \/ NoEarlierThinking (K := referenceConstants) out 2
           /\ content = "[Continuing from previous reasoning]")
    /\ (NoEarlierThinking (K := referenceConstants) scenarioC 2 ->
        content = "[Continuing from previous reasoning]")
    /\ (forall t,
          MostRecentCompliantThinking (K := referenceConstants) scenarioC 2 t ->
          content = t).
Proof.
  apply (repair_content (K := referenceConstants) scenarioC 2
           (sampleAssistant "msg_3" [samplePart "tool_use"])).
  - apply WellFormed_scenarioC.
  - apply Enforcing_scenarioC.
  - reflexivity.
  - reflexivity.
Defined.

(** In scenario C the repaired turn carries the earlier reasoning. *)
Example scenarioC_reuses :
  (transform (K := referenceConstants) scenarioC).1 !! 2
  = Some (sampleAssistant "msg_3"
            [ mkPart "thinking" (Some "prt_0000000000_synthetic_thinking")
                (Some "ses_1") (Some "msg_3") (Some "reasoning A") None
                (Some true) [];
              samplePart "tool_use" ]).
Proof. reflexivity. Qed.

(** C6, as stated, fails: in [lateThinking] the first assistant turn has
    the non-empty thinking text "reasoning A" and the second is in
    violation, yet the part the second one gets carries the placeholder.
    The first turn is itself in violation (its text comes first); the
    placeholder put in front of it is what the search then finds. *)
Lemma reuse_preference_counterexample :
  MostRecentThinking (K := referenceConstants) lateThinking 1 "reasoning A"
  /\ isViolation (K := referenceConstants)
       (sampleAssistant "msg_2" [samplePart "tool_use"]) = true
  /\ exists out part,
       transform (K := referenceConstants) lateThinking = (out, Normal tt)
       /\ partsOf <$> out !! 1 = Some [part; samplePart "tool_use"]
       /\ part_thinking part = Some "[Continuing from previous reasoning]"
       /\ part_thinking part <> Some "reasoning A".
Proof.
  split; [|split; [reflexivity|]].
  - exists 0, (sampleAssistant "msg_1"
                 [samplePart "text"; sampleThinking "reasoning A"]).
    repeat split; try reflexivity; [lia | | intros k m' Hk; lia].
    eexists. split; [reflexivity|].
    exists [samplePart "text"], (sampleThinking "reasoning A"), [].
    repeat split; try reflexivity. repeat constructor.
  - eexists. eexists. split; [reflexivity|].
    split; [reflexivity|]. split; [reflexivity | discriminate].
Qed.

Lemma repair_frame_witness :
  (forall m info content,
     msg_info m = Some info ->
     exists part,
       prependThinkingBlock (K := referenceConstants) m content
       = ({| msg_info := Some info;
             msg_parts := Some (part :: partsOf m) |}, Normal tt)
       /\ part_type part = "thinking"
       /\ part_thinking part = Some content
       /\ part_id part = Some "prt_0000000000_synthetic_thinking"
       /\ part_sessionID part
          = Some match info_sessionID info with
                 | Some s => s
                 | None => ""
                 end
       /\ part_messageID part = Some (info_id info)
       /\ part_synthetic part = Some true)
  /\ (forall messages,
        length (transform (K := referenceConstants) messages).1
        = length messages
        /\ forall j m,
             messages !! j = Some m ->
             exists m',
               (transform (K := referenceConstants) messages).1 !! j = Some m'
               /\ msg_info m' = msg_info m
               /\ (m' = m
                   \/ exists part,
                        msg_parts m' = Some (part :: partsOf m)
                        /\ part_synthetic part = Some true)
               /\ nonThinkingParts (K := referenceConstants) (partsOf m')
                  = nonThinkingParts (K := referenceConstants) (partsOf m)).
Proof.
  apply (repair_frame (K := referenceConstants)).
  apply reference_thinking_listed.
Defined.

Lemma transform_noop_when_not_enforcing_witness :
  transform (K := referenceConstants) scenarioB = (scenarioB, Normal tt).
Proof.
  apply (transform_noop_when_not_enforcing (K := referenceConstants)
           scenarioB (Some (sampleUser "msg_1" "gpt-4"))).
  - exists [], (tail scenarioB). repeat split; try reflexivity.
    repeat constructor. discriminate.
  - right. reflexivity.
Defined.

Lemma transform_no_rollback_witness :
  exists out,
    transform (K := referenceConstants) brokenInTheMiddle = (out, Throws)
    /\ length out = 4
    /\ (forall j, 1 <= j -> out !! j = brokenInTheMiddle !! j)
    /\ (forall j m, j < 1 -> brokenInTheMiddle !! j = Some m ->
          exists m', out !! j = Some m'
                     /\ RepairedAt (K := referenceConstants) out j m m')
    /\ (WellFormed brokenInTheMiddle -> 1 = 4).
Proof.
  apply (transform_no_rollback (K := referenceConstants) brokenInTheMiddle 1).
  - apply Enforcing_brokenInTheMiddle.
  - apply StopsAt_brokenInTheMiddle.
Defined.

(** C9, as stated, fails: on [brokenInTheMiddle] the transform throws at the
    second message, and by then the first message has been repaired; the
    third, in violation too, is left as it was. *)
Lemma transform_partial_repair_counterexample :
  exists out first,
    transform (K := referenceConstants) brokenInTheMiddle = (out, Throws)
    /\ out <> brokenInTheMiddle
    /\ out !! 0 = Some first
    /\ startsWithThinkingBlock (K := referenceConstants) (msg_parts first)
       = true
    /\ out !! 2 = brokenInTheMiddle !! 2
    /\ isViolation (K := referenceConstants)
         (sampleAssistant "msg_3" [samplePart "tool_use"]) = true.
Proof.
  eexists. eexists. split; [reflexivity|].
  split; [discriminate|]. repeat split.
Qed.

(** * Further properties *)

(** ** The capability oracle *)

Lemma truthy_toLowerCase (s : string) : truthy (toLowerCase s) = truthy s.
Proof. by destruct s. Qed.

Lemma truthy_append (pre s : string) :
  truthy s = true -> truthy (pre ++ s)%string = true.
Proof. destruct pre; [done|]. reflexivity. Qed.

(** The oracle is a test on the lower-cased identifier. *)
Lemma isExtendedThinkingModel_lower (modelID : string) :
  isExtendedThinkingModel modelID
  = truthy (toLowerCase modelID)
    && (includes (toLowerCase modelID) "thinking"
        || endsWith (toLowerCase modelID) "-high"
        || (includes (toLowerCase modelID) "claude-sonnet-4"
            || includes (toLowerCase modelID) "claude-opus-4"
            || includes (toLowerCase modelID) "claude-3")).
Proof.
  unfold isExtendedThinkingModel. rewrite truthy_toLowerCase.
  destruct (truthy modelID); simpl; [|done].
  by destruct (includes (toLowerCase modelID) "thinking"
               || endsWith (toLowerCase modelID) "-high").
Qed.

Lemma includes_append (pre s p : string) :
  includes s p = true -> includes (pre ++ s) p = true.
Proof.
  rewrite !includes_spec. intros (a & b & ->).
  exists (pre ++ a)%string, b.
  induction pre as [|c pre IH]; simpl; [done | by rewrite IH].
Qed.

Lemma endsWith_append (pre s p : string) :
  endsWith s p = true -> endsWith (pre ++ s) p = true.
Proof.
  rewrite !endsWith_spec. intros (a & ->).
  exists (pre ++ a)%string.
  induction pre as [|c pre IH]; simpl; [done | by rewrite IH].
Qed.

(** Two identifiers that differ in the case of their letters only get the
    same answer from the oracle. *)
Theorem isExtendedThinkingModel_case_blind (modelID modelID' : string) :
  toLowerCase modelID = toLowerCase modelID' ->
  isExtendedThinkingModel modelID = isExtendedThinkingModel modelID'.
Proof.
  intros Hsame. rewrite !isExtendedThinkingModel_lower. by rewrite Hsame.
Qed.

Lemma isExtendedThinkingModel_case_blind_witness :
  isExtendedThinkingModel "Claude-3-Opus"
  = isExtendedThinkingModel "CLAUDE-3-OPUS".
Proof. apply isExtendedThinkingModel_case_blind. reflexivity. Defined.

(** An identifier the oracle accepts is still accepted with anything put in
    front of it, a provider prefix for instance. *)
Theorem isExtendedThinkingModel_prefixed (pre modelID : string) :
  isExtendedThinkingModel modelID = true ->
  isExtendedThinkingModel (pre ++ modelID) = true.
Proof.
  rewrite !isExtendedThinkingModel_lower, toLowerCase_app.
  rewrite !andb_true_iff, !orb_true_iff.
  intros [Htruthy Hmatch]. split; [by apply truthy_append|].
  destruct Hmatch as [[Hm | Hm] | [[Hm | Hm] | Hm]];
    auto using includes_append, endsWith_append.
Qed.

Lemma isExtendedThinkingModel_prefixed_witness :
  isExtendedThinkingModel ("anthropic/" ++ "claude-sonnet-4-5") = true.
Proof. apply isExtendedThinkingModel_prefixed. reflexivity. Defined.

(** ** White space *)

Lemma isBlank_cons (c : ascii) (s : string) :
  isBlank (String c s) <-> isWhiteSpace c = true /\ isBlank s.
Proof.
  unfold isBlank. simpl. split.
  - intros Hall. split; [apply Hall; by left|]. intros d Hd. apply Hall. by right.
  - intros [Hc Hs] d [<- | Hd]; [done | by apply Hs].
Qed.

Lemma isBlank_empty : isBlank EmptyString.
Proof. intros c []. Qed.

Lemma trimStart_isBlank (s : string) : isBlank s -> trimStart s = EmptyString.
Proof.
  induction s as [|c s IH]; [done|]. intros [Hc Hs]%isBlank_cons.
  simpl. rewrite Hc. by apply IH.
Qed.

Lemma isBlank_trimStart (s : string) : isBlank (trimStart s) -> isBlank s.
Proof.
  induction s as [|c s IH]; [done|]. simpl.
  destruct (isWhiteSpace c) eqn:Hc; [|done].
  intros Hs. apply isBlank_cons. auto.
Qed.

Lemma trimEnd_empty (s : string) : trimEnd s = EmptyString -> isBlank s.
Proof.
  induction s as [|c s IH]; [intros _; apply isBlank_empty|]. simpl.
  destruct (isWhiteSpace c) eqn:Hc; simpl; [|done].
  destruct (trimEnd s) as [|d t] eqn:Ht; simpl; [|done].
  intros _. apply isBlank_cons. auto.
Qed.

Lemma trim_empty_iff (s : string) : trim s = EmptyString <-> isBlank s.
Proof.
  unfold trim. split.
  - intros Hempty. by apply isBlank_trimStart, trimEnd_empty.
  - intros Hblank. by rewrite (trimStart_isBlank s Hblank).
Qed.

Lemma trim_length_positive (s : string) :
  (0 <? String.length (trim s)) = true <-> ~ isBlank s.
Proof.
  rewrite <- trim_empty_iff. destruct (trim s); simpl; split; done.
Qed.

Lemma not_isBlank_witness (s : string) :
  ~ isBlank s ->
  exists c, In c (list_ascii_of_string s) /\ isWhiteSpace c = false.
Proof.
  induction s as [|c s IH]; [intros Hne; destruct Hne; apply isBlank_empty|].
  intros Hne. destruct (isWhiteSpace c) eqn:Hc.
  - destruct IH as (d & Hd & Hw).
    + intros Hs. apply Hne, isBlank_cons. auto.
    + exists d. split; [by right | done].
  - exists c. split; [by left | done].
Qed.

(** ** More on the backward search *)

Section SearchMore.
Context {K : Constants}.

Lemma thinkingText_not_blank (part : MessagePart) (t : string) :
  thinkingText part = Some t -> ~ isBlank t.
Proof.
  unfold thinkingText.
  destruct (match part_thinking part with
            | Some t0 => if truthy t0 then Some t0 else part_text part
            | None => part_text part
            end) as [t'|]; [|done].
  destruct (truthy t'); simpl; [|done].
  destruct (0 <? String.length (trim t')) eqn:Hlen; [|done].
  intros [= <-]. by apply trim_length_positive.
Qed.

Lemma scanParts_not_blank (ps : list MessagePart) (t : string) :
  scanParts ps = Some t -> ~ isBlank t.
Proof.
  intros Hscan. apply scanParts_Some in Hscan
    as (before & part & after & _ & _ & Htext & _).
  by apply (thinkingText_not_blank part).
Qed.

Lemma thinkingText_thinkingPart_Some info (content : string) :
  ~ isBlank content ->
  thinkingText (thinkingPart info content) = Some content.
Proof.
  intros Hcontent. unfold thinkingText. simpl.
  assert (Htruthy : truthy content = true).
  { destruct content; [|done]. destruct Hcontent. apply isBlank_empty. }
  rewrite Htruthy. simpl. rewrite Htruthy.
  by rewrite (proj2 (trim_length_positive content) Hcontent).
Qed.

(** What the search returns is never a string of white space only: it is
    the empty string, or it has a code unit that is not white space. *)
Theorem findPreviousThinkingContent_never_blank
    (messages : list MessageWithParts) (i : nat) (t : string) :
  findPreviousThinkingContent messages i = Normal t ->
  t = ""
  \/ exists c, In c (list_ascii_of_string t) /\ isWhiteSpace c = false.
Proof.
  induction i as [|i IH]; simpl.
  - intros [= <-]. by left.
  - destruct (messages !! i) as [msg|]; [|done].
    destruct (msg_info msg) as [info|]; [|done].
    destruct (negb (Role_eqb (info_role info) assistant)); [done|].
    destruct (msg_parts msg) as [parts|]; [|done].
    destruct (scanParts parts) as [thinking|] eqn:Hscan; [|done].
    intros [= <-]. right.
    by apply not_isBlank_witness, (scanParts_not_blank parts).
Qed.

(** The search throws when the index lies beyond the end of the array, and
    within the array it throws only when it meets a message that lacks its
    info record. *)
Theorem findPreviousThinkingContent_throws
    (messages : list MessageWithParts) :
  (forall i, length messages < i ->
             findPreviousThinkingContent messages i = Throws)
  /\ (forall i, i <= length messages ->
        findPreviousThinkingContent messages i = Throws ->
        exists j bad,
          j < i /\ messages !! j = Some bad /\ msg_info bad = None).
Proof.
  split.
  - intros [|i] Hi; [lia|]. simpl.
    by rewrite (proj2 (lookup_ge_None messages i)) by lia.
  - intros i. induction i as [|i IH]; simpl; [done|]. intros Hi.
    destruct (lookup_lt_is_Some_2 messages i) as [msg Hmsg]; [lia|].
    rewrite Hmsg.
    assert (Hearlier :
      findPreviousThinkingContent messages i = Throws ->
      exists j bad, j < S i /\ messages !! j = Some bad /\ msg_info bad = None).
    { intros Hthrows. destruct IH as (j & bad & Hj & Hbad); [lia | done |].
      exists j, bad. split; [lia | done]. }
    destruct (msg_info msg) as [info|] eqn:Hinfo.
    + destruct (negb (Role_eqb (info_role info) assistant)); [done|].
      destruct (msg_parts msg) as [parts|]; [|done].
      by destruct (scanParts parts).
    + intros _. exists i, msg. split; [lia | done].
Qed.

(** The search sees the assistant messages only: taking the messages of
    other roles out of the part of the conversation below the index leaves
    the result as it is. *)
Theorem findPreviousThinkingContent_assistants_only
    (messages : list MessageWithParts) (i : nat) :
  i <= length messages -> WellFormed (take i messages) ->
  findPreviousThinkingContent messages i
  = findPreviousThinkingContent
      (List.filter isAssistant (take i messages))
      (length (List.filter isAssistant (take i messages))).
Proof.
  induction i as [|i IH]; intros Hi Hwf; [done|].
  destruct (lookup_lt_is_Some_2 messages i) as [msg Hmsg]; [lia|].
  destruct (WellFormed_take_lookup _ _ i msg Hwf) as [info Hinfo]; [lia|done|].
  assert (Hassist : isAssistant msg = Role_eqb (info_role info) assistant).
  { unfold isAssistant, roleIs. by rewrite Hinfo. }
  rewrite (take_S_r _ _ _ Hmsg), List.filter_app.
  specialize (IH ltac:(lia) (WellFormed_take_le _ (S i) i Hwf ltac:(lia))).
  set (F := List.filter isAssistant (take i messages)) in *.
  cbn [List.filter]. rewrite Hassist.
  cbn [findPreviousThinkingContent]. rewrite Hmsg, Hinfo.
  destruct (Role_eqb (info_role info) assistant) eqn:Hrole; simpl.
  - rewrite length_app. simpl. rewrite Nat.add_1_r.
    cbn [findPreviousThinkingContent].
    rewrite list_lookup_middle by done. rewrite Hinfo, Hrole. simpl.
    assert (Hrest : findPreviousThinkingContent (F ++ [msg]) (length F)
                    = findPreviousThinkingContent messages i).
    { rewrite IH. apply findPreviousThinkingContent_take.
      by rewrite take_app_length, take_ge. }
    rewrite Hrest. done.
  - by rewrite app_nil_r.
Qed.

(** A repaired message passes the check it failed: it starts with a
    thinking-like part, and it still has content. *)
Theorem prependThinkingBlock_passes_check
    (m : MessageWithParts) (info : MessageInfo) (content : string) :
  In "thinking" THINKING_PART_TYPES ->
  msg_info m = Some info ->
  hasContentParts (msg_parts m) = true ->
  startsWithThinkingBlock (msg_parts (prependThinkingBlock m content).1) = true
  /\ hasContentParts (msg_parts (prependThinkingBlock m content).1) = true.
Proof.
  intros Hthinking Hinfo Hcontent. unfold prependThinkingBlock.
  rewrite Hinfo. simpl. split.
  - by apply isThinkingPart_thinkingPart.
  - destruct (msg_parts m) as [ps|]; [|done].
    rewrite hasContentParts_Some in Hcontent. rewrite Hcontent.
    apply orb_true_r.
Qed.

(** Repair, then search: once an assistant message has been given a
    synthetic part whose content is not blank, the search from the next
    index returns that content, whatever the message held before. *)
Theorem prependThinkingBlock_then_search
    (messages : list MessageWithParts) (i : nat)
    (m : MessageWithParts) (info : MessageInfo) (content : string) :
  In "thinking" THINKING_PART_TYPES ->
  messages !! i = Some m ->
  msg_info m = Some info -> info_role info = assistant ->
  ~ isBlank content ->
  findPreviousThinkingContent
    (<[i := (prependThinkingBlock m content).1]> messages) (S i)
  = Normal content.
Proof.
  intros Hthinking Hm Hinfo Hrole Hcontent.
  cbn [findPreviousThinkingContent].
  rewrite list_lookup_insert_eq
    by (by apply lookup_lt_is_Some_1; eexists).
  unfold prependThinkingBlock. rewrite Hinfo. simpl. rewrite Hrole. simpl.
  rewrite (isThinkingPart_thinkingPart info content Hthinking).
  by rewrite (thinkingText_thinkingPart_Some info content Hcontent).
Qed.

End SearchMore.

Lemma findPreviousThinkingContent_never_blank_witness :
  "reasoning A" = ""
  \/ exists c, In c (list_ascii_of_string "reasoning A")
               /\ isWhiteSpace c = false.
Proof.
  apply (findPreviousThinkingContent_never_blank (K := referenceConstants)
           scenarioC 2).
  reflexivity.
Defined.

Lemma findPreviousThinkingContent_assistants_only_witness :
  findPreviousThinkingContent (K := referenceConstants) scenarioC 2
  = findPreviousThinkingContent (K := referenceConstants)
      (List.filter isAssistant (take 2 scenarioC))
      (length (List.filter isAssistant (take 2 scenarioC))).
Proof.
  apply (findPreviousThinkingContent_assistants_only
           (K := referenceConstants) scenarioC 2).
  - simpl. lia.
  - repeat constructor; discriminate.
Defined.

Lemma prependThinkingBlock_passes_check_witness :
  startsWithThinkingBlock (K := referenceConstants)
    (msg_parts (prependThinkingBlock (K := referenceConstants)
                  (sampleAssistant "msg_2" [samplePart "tool_use"])
                  "reasoning A").1) = true
  /\ hasContentParts (K := referenceConstants)
       (msg_parts (prependThinkingBlock (K := referenceConstants)
                     (sampleAssistant "msg_2" [samplePart "tool_use"])
                     "reasoning A").1) = true.
Proof.
  apply (prependThinkingBlock_passes_check (K := referenceConstants)
           (sampleAssistant "msg_2" [samplePart "tool_use"])
           (mkInfo "msg_2" assistant (Some "ses_1") None)).
  - apply reference_thinking_listed.
  - reflexivity.
  - reflexivity.
Defined.

Lemma prependThinkingBlock_then_search_witness :
  findPreviousThinkingContent (K := referenceConstants)
    (<[1 := (prependThinkingBlock (K := referenceConstants)
               (sampleAssistant "msg_2" [samplePart "tool_use"])
               "kept reasoning").1]> lateThinking) 2
  = Normal "kept reasoning".
Proof.
  apply (prependThinkingBlock_then_search (K := referenceConstants)
           lateThinking 1
           (sampleAssistant "msg_2" [samplePart "tool_use"])
           (mkInfo "msg_2" assistant (Some "ses_1") None)).
  - apply reference_thinking_listed.
  - reflexivity.
  - reflexivity.
  - reflexivity.
  - intros Hblank. specialize (Hblank "k"%char). simpl in Hblank.
    discriminate Hblank. by left.
Defined.


(** ** More on the transform *)

Section TransformMore.
Context {K : Constants}.

Lemma InvariantHolds_no_violation (messages : list MessageWithParts) :
  InvariantHolds messages <->
  Forall (fun m => isViolation m = false) messages.
Proof.
  unfold InvariantHolds. apply Forall_iff. intros m. unfold isViolation.
  destruct (roleIs assistant m), (hasContentParts (msg_parts m)),
    (startsWithThinkingBlock (msg_parts m)); simpl; split; auto.
  intros Himp. by discriminate Himp.
Qed.

Lemma repairedMessage_changes info content (m : MessageWithParts) :
  repairedMessage info content m <> m.
Proof.
  intros Heq. apply (f_equal msg_parts) in Heq. simpl in Heq.
  unfold partsOf in Heq. destruct (msg_parts m) as [ps|]; [|done].
  injection Heq as Heq. apply (f_equal length) in Heq. simpl in Heq. lia.
Qed.

(** The transform touches assistant messages only: a message of another
    role, or one without an info record, is at its index afterwards
    exactly as it was, whatever the rest of the conversation. *)
Theorem transform_leaves_other_roles
    (messages : list MessageWithParts) (j : nat) (m : MessageWithParts) :
  messages !! j = Some m -> isAssistant m = false ->
  (transform messages).1 !! j = Some m.
Proof.
  intros Hm Hrole.
  destruct (transform_pass messages) as (out & c & k & -> & Hpass).
  destruct (PassUpTo_lookup _ _ _ _ _ Hpass Hm)
    as (m' & Hm' & [-> | (info & content & Hv & _)]); [done|].
  apply isViolation_inv in Hv as [Hassistant _].
  unfold isAssistant in Hrole. congruence.
Qed.

(** On a conversation in which every assistant message with content
    already starts with a thinking-like part the transform changes
    nothing, whatever the model. *)
Theorem transform_compliant_unchanged (messages : list MessageWithParts) :
  InvariantHolds messages -> (transform messages).1 = messages.
Proof.
  intros Hok%InvariantHolds_no_violation.
  destruct (transform_pass messages) as (out & c & k & -> & Hpass).
  simpl. apply list_eq. intros j.
  destruct (messages !! j) as [m|] eqn:Hm.
  - destruct (PassUpTo_lookup _ _ _ _ _ Hpass Hm)
      as (m' & Hm' & [-> | (info & content & Hv & _)]); [done|].
    rewrite Forall_lookup in Hok. by rewrite (Hok j m Hm) in Hv.
  - destruct Hpass as (Hl & _). apply lookup_ge_None.
    rewrite Hl. by apply lookup_ge_None.
Qed.

(** With an enforcing model and every info record in place, the messages
    the transform changes are exactly the ones in violation. *)
Theorem transform_changes_violations_only
    (messages : list MessageWithParts) (j : nat) (m : MessageWithParts) :
  WellFormed messages -> Enforcing messages ->
  messages !! j = Some m ->
  ((transform messages).1 !! j = Some m <-> isViolation m = false).
Proof.
  intros Hwf Henf Hm.
  destruct (transform_Enforcing messages (length messages) Henf
              (StopsAt_length _ Hwf)) as (out & -> & Hl & _ & Hrep).
  simpl.
  assert (Hj : j < length messages) by (by apply lookup_lt_is_Some_1; eexists).
  destruct (Hrep j m Hj Hm)
    as (m' & -> & [[Hv ->] | (Hv & info & p & _ & _ & ->)]).
  - done.
  - split; [|congruence]. intros [= Heq].
    by destruct (repairedMessage_changes _ _ _ Heq).
Qed.

End TransformMore.

Lemma transform_leaves_other_roles_witness :
  (transform (K := referenceConstants) twoViolations).1 !! 1
  = Some (sampleUser "msg_2" "claude-opus-4-thinking").
Proof.
  apply (transform_leaves_other_roles (K := referenceConstants)
           twoViolations 1); reflexivity.
Defined.

Lemma transform_compliant_unchanged_witness :
  (transform (K := referenceConstants)
     [ sampleUser "msg_1" "claude-opus-4-thinking";
       sampleAssistant "msg_2"
         [ sampleThinking "reasoning A"; samplePart "tool_use" ] ]).1
  = [ sampleUser "msg_1" "claude-opus-4-thinking";
      sampleAssistant "msg_2"
        [ sampleThinking "reasoning A"; samplePart "tool_use" ] ].
Proof.
  apply (transform_compliant_unchanged (K := referenceConstants)).
  apply Forall_cons. split; [intros Hrole; discriminate Hrole|].
  apply Forall_cons. split; [intros _ _; reflexivity|].
  apply Forall_nil_2.
Defined.

Lemma transform_changes_violations_only_witness :
  (transform (K := referenceConstants) twoViolations).1 !! 0
  = Some (sampleAssistant "msg_1" [samplePart "tool_use"])
  <-> isViolation (K := referenceConstants)
        (sampleAssistant "msg_1" [samplePart "tool_use"]) = false.
Proof.
  apply (transform_changes_violations_only (K := referenceConstants)
           twoViolations 0).
  - apply WellFormed_twoViolations.
  - apply Enforcing_twoViolations.
  - reflexivity.
Defined.

(** ** Validation reports *)

Section ValidationProperties.
Context {K : Constants}.

Lemma validateMessage_passed (m : MessageWithParts)
    (messages : list MessageWithParts) (i : nat) (modelID : string) :
  hasInfo m ->
  isExtendedThinkingModel modelID = false \/ isViolation m = false ->
  validateMessage m messages i modelID = (m, Normal passedResult).
Proof.
  unfold hasInfo, validateMessage, isViolation, roleIs.
  destruct (msg_info m) as [info|]; [|done]. intros _ Hwhy.
  destruct (Role_eqb (info_role info) assistant); [|done]. simpl in *.
  destruct (isExtendedThinkingModel modelID); [|done]. simpl.
  destruct Hwhy as [? | ->]; done.
Qed.

Lemma validateMessage_fixed (m : MessageWithParts)
    (messages : list MessageWithParts) (i : nat) (modelID : string)
    (info : MessageInfo) (previous : string) :
  msg_info m = Some info -> isViolation m = true ->
  isExtendedThinkingModel modelID = true ->
  findPreviousThinkingContent messages i = Normal previous ->
  validateMessage m messages i modelID
  = (repairedMessage info (chosenContent previous) m,
     Normal (fixedResult (chosenContent previous))).
Proof.
  intros Hinfo Hv Hmodel Hfind. unfold validateMessage, prependThinkingBlock.
  unfold isViolation, roleIs in Hv. rewrite Hinfo in *.
  destruct (Role_eqb (info_role info) assistant); [|done]. simpl in *.
  by rewrite Hmodel, Hv, Hfind.
Qed.

Lemma WellFormed_insert (messages : list MessageWithParts) (i : nat) m' :
  WellFormed messages -> hasInfo m' -> WellFormed (<[i := m']> messages).
Proof. intros Hwf Hm'. by apply Forall_insert. Qed.

(** Nothing to fix: the array stays and every result has passed. *)
Lemma validateLoop_passed (modelID : string) (fuel : nat) :
  forall (i : nat) (messages : list MessageWithParts) results,
    i + fuel = length messages -> WellFormed messages ->
    isExtendedThinkingModel modelID = false
    \/ Forall (fun m => isViolation m = false) messages ->
    validateLoop fuel i messages modelID results
    = (messages, Normal (results ++ replicate fuel passedResult)).
Proof.
  induction fuel as [|fuel IH]; intros i messages results Hlen Hwf Hwhy.
  - simpl. by rewrite app_nil_r.
  - destruct (lookup_lt_is_Some_2 messages i) as [msg Hmsg]; [lia|].
    simpl. rewrite Hmsg.
    rewrite (validateMessage_passed msg messages i modelID).
    + rewrite (list_insert_id _ _ _ Hmsg), IH; [|lia|done..].
      by rewrite <- app_assoc.
    + unfold WellFormed in Hwf. rewrite Forall_lookup in Hwf. by apply (Hwf i).
    + destruct Hwhy as [? | Hok]; [by left | right].
      rewrite Forall_lookup in Hok. by apply (Hok i).
Qed.

(** The two drivers go through the array in the same way. *)
Lemma validateLoop_repairLoop (modelID : string) (fuel : nat) :
  isExtendedThinkingModel modelID = true ->
  forall (i : nat) (messages : list MessageWithParts) results,
    (validateLoop fuel i messages modelID results).1
    = (repairLoop fuel i messages).1
    /\ ((validateLoop fuel i messages modelID results).2 = Throws
        <-> (repairLoop fuel i messages).2 = Throws).
Proof.
  intros Hmodel. induction fuel as [|fuel IH]; intros i messages results.
  - simpl. done.
  - simpl. destruct (messages !! i) as [msg|] eqn:Hmsg; [|done].
    unfold validateMessage.
    destruct (msg_info msg) as [info|] eqn:Hinfo.
    2:{ simpl. by rewrite (list_insert_id _ _ _ Hmsg). }
    destruct (negb (Role_eqb (info_role info) assistant)).
    { rewrite (list_insert_id _ _ _ Hmsg). apply IH. }
    rewrite Hmodel. simpl.
    destruct (hasContentParts (msg_parts msg)
              && negb (startsWithThinkingBlock (msg_parts msg))).
    2:{ rewrite (list_insert_id _ _ _ Hmsg). apply IH. }
    destruct (findPreviousThinkingContent messages i) as [previous|].
    2:{ simpl. by rewrite (list_insert_id _ _ _ Hmsg). }
    unfold prependThinkingBlock. rewrite Hinfo. apply IH.
Qed.

(** With an enforcing model the results tell, message by message, whether
    the message was in violation. *)
Lemma validateLoop_flags (modelID : string) (fuel : nat) :
  isExtendedThinkingModel modelID = true ->
  forall (i : nat) (messages : list MessageWithParts) results,
    i + fuel = length messages -> WellFormed messages ->
    exists out rs,
      validateLoop fuel i messages modelID results
      = (out, Normal (results ++ rs))
      /\ Forall2 (fun r m => result_fixed r = isViolation m
                             /\ result_valid r = negb (isViolation m))
           rs (drop i messages).
Proof.
  intros Hmodel.
  induction fuel as [|fuel IH]; intros i messages results Hlen Hwf.
  - exists messages, []. simpl. rewrite app_nil_r. split; [done|].
    rewrite drop_ge by lia. constructor.
  - destruct (lookup_lt_is_Some_2 messages i) as [msg Hmsg]; [lia|].
    destruct (WellFormed_take_lookup messages (length messages) i msg)
      as [info Hinfo]; [by rewrite take_ge | lia | done |].
    simpl. rewrite Hmsg, (drop_S _ _ _ Hmsg).
    destruct (isViolation msg) eqn:Hv.
    + destruct (findPreviousThinkingContent_found i messages)
        as (previous & Hfind & _); [lia | by apply Forall_take |].
      rewrite (validateMessage_fixed msg messages i modelID info previous)
        by done.
      set (msg' := repairedMessage info (chosenContent previous) msg).
      destruct (IH (S i) (<[i := msg']> messages)
                  (results ++ [fixedResult (chosenContent previous)]))
        as (out & rs & Hrun & Hflags).
      { rewrite length_insert. lia. }
      { by apply WellFormed_insert. }
      exists out, (fixedResult (chosenContent previous) :: rs).
      rewrite Hrun, <- app_assoc. split; [done|].
      rewrite drop_insert_lt in Hflags by lia.
      constructor; [by rewrite Hv | done].
    + rewrite (validateMessage_passed msg messages i modelID).
      * rewrite (list_insert_id _ _ _ Hmsg).
        destruct (IH (S i) messages (results ++ [passedResult]))
          as (out & rs & Hrun & Hflags); [lia | done |].
        exists out, (passedResult :: rs).
        rewrite Hrun, <- app_assoc. split; [done|].
        constructor; [by rewrite Hv | done].
      * unfold hasInfo. by rewrite Hinfo.
      * by right.
Qed.

Lemma stats_of_flags (results : list ValidationResult)
    (messages : list MessageWithParts) :
  Forall2 (fun r m => result_fixed r = isViolation m
                      /\ result_valid r = negb (isViolation m))
    results messages ->
  stats_total (getValidationStats results) = length messages
  /\ stats_fixed (getValidationStats results)
     = length (List.filter isViolation messages)
  /\ stats_issues (getValidationStats results)
     = length (List.filter isViolation messages)
  /\ stats_valid (getValidationStats results)
     + length (List.filter isViolation messages) = length messages.
Proof.
  unfold getValidationStats. simpl.
  induction 1 as [|r m results messages [Hfixed Hvalid] _ IH]; [done|].
  destruct IH as (IHtotal & IHfixed & IHissues & IHvalid).
  simpl. rewrite Hfixed, Hvalid.
  destruct (isViolation m); simpl; repeat split; lia.
Qed.

(** When the model does not enforce, or no message is in violation,
    [validateMessages] leaves the conversation as it is and reports every
    message as valid and not fixed. *)
Theorem validateMessages_nothing_to_fix
    (messages : list MessageWithParts) (modelID : string) :
  WellFormed messages ->
  isExtendedThinkingModel modelID = false \/ InvariantHolds messages ->
  validateMessages messages modelID
  = (messages, Normal (replicate (length messages) passedResult)).
Proof.
  intros Hwf Hwhy. unfold validateMessages.
  rewrite (validateLoop_passed modelID); [done | done | done |].
  destruct Hwhy as [? | Hok]; [by left | right].
  by apply InvariantHolds_no_violation.
Qed.

(** Let [u] be the most recent user message of the conversation, every
    message after it carrying its info record, and let the model it names
    be an enforcing one.  Called with that model, [validateMessages] leaves
    the conversation exactly as the transform hook does, and it throws
    exactly when the hook does. *)
Theorem validateMessages_repairs_like_transform
    (before after : list MessageWithParts) (u : MessageWithParts) :
  roleIs user u = true ->
  Forall (fun m => hasInfo m /\ roleIs user m = false) after ->
  isExtendedThinkingModel (modelIDOf (Some u)) = true ->
  (validateMessages (before ++ u :: after) (modelIDOf (Some u))).1
  = (transform (before ++ u :: after)).1
  /\ ((validateMessages (before ++ u :: after) (modelIDOf (Some u))).2
      = Throws
      <-> (transform (before ++ u :: after)).2 = Throws).
Proof.
  intros Huser Hafter Hmodel.
  assert (Hlast : LastUser (before ++ u :: after) (Some u)).
  { exists before, after. done. }
  unfold validateMessages, transform.
  destruct (length (before ++ u :: after) =? 0) eqn:Hempty.
  - apply Nat.eqb_eq in Hempty. rewrite Hempty. simpl. done.
  - rewrite (lastUserMessage_LastUser _ _ Hlast), Hmodel. simpl.
    by apply validateLoop_repairLoop.
Qed.

(** With an enforcing model and every info record in place,
    [validateMessages] returns one result per message, in order; a message
    in violation is reported as fixed and not valid, any other as valid and
    not fixed. *)
Theorem validateMessages_reports
    (messages : list MessageWithParts) (modelID : string) :
  WellFormed messages -> isExtendedThinkingModel modelID = true ->
  exists out results,
    validateMessages messages modelID = (out, Normal results)
    /\ length results = length messages
    /\ forall j m,
         messages !! j = Some m ->
         exists r,
           results !! j = Some r
           /\ result_fixed r = isViolation m
           /\ result_valid r = negb (isViolation m).
Proof.
  intros Hwf Hmodel.
  destruct (validateLoop_flags modelID (length messages) Hmodel 0 messages [])
    as (out & results & Hrun & Hflags); [done | done |].
  simpl in Hrun, Hflags. exists out, results. split; [done|]. split.
  - by apply Forall2_length in Hflags.
  - intros j m Hm.
    destruct (Forall2_lookup_r _ _ _ _ _ Hflags Hm) as (r & Hr & Hfixed & Hvalid).
    by exists r.
Qed.

(** The statistics of such a run count the violations of the conversation
    that was handed in: that many results are fixed, as many are issues,
    and all the others are valid. *)
Theorem getValidationStats_counts_violations
    (messages : list MessageWithParts) (modelID : string) :
  WellFormed messages -> isExtendedThinkingModel modelID = true ->
  exists out results,
    validateMessages messages modelID = (out, Normal results)
    /\ stats_total (getValidationStats results) = length messages
    /\ stats_fixed (getValidationStats results)
       = length (List.filter isViolation messages)
    /\ stats_issues (getValidationStats results)
       = length (List.filter isViolation messages)
    /\ stats_valid (getValidationStats results)
       + length (List.filter isViolation messages) = length messages.
Proof.
  intros Hwf Hmodel.
  destruct (validateLoop_flags modelID (length messages) Hmodel 0 messages [])
    as (out & results & Hrun & Hflags); [done | done |].
  simpl in Hrun, Hflags. exists out, results. split; [done|].
  by apply stats_of_flags.
Qed.

(** A second run of [validateMessages] finds nothing left to fix: the
    conversation the first run left behind comes back unchanged, with
    every result valid and not fixed. *)
Theorem validateMessages_second_run
    (messages : list MessageWithParts) (modelID : string) :
  In "thinking" THINKING_PART_TYPES ->
  WellFormed messages -> isExtendedThinkingModel modelID = true ->
  validateMessages (validateMessages messages modelID).1 modelID
  = ((validateMessages messages modelID).1,
     Normal (replicate (length messages) passedResult)).
Proof.
  intros Hthinking Hwf Hmodel.
  destruct (validateLoop_repairLoop modelID (length messages) Hmodel
              0 messages []) as [Hsame _].
  destruct (repairLoop_PassUpTo messages _ (StopsAt_length _ Hwf))
    as (out & Hloop & Hpass).
  unfold validateMessages at 2 3. rewrite Hsame, Hloop. simpl.
  assert (Hl : length out = length messages) by apply Hpass.
  unfold validateMessages. rewrite Hl, <- Hl.
  apply validateLoop_passed; [done | |].
  - destruct (StopsAt_infos messages out (length messages))
      as (_ & Hall & _);
      [done | by apply (PassUpTo_infos (length messages))
       | by apply StopsAt_length |].
    rewrite take_ge in Hall; [done | lia].
  - right. rewrite Forall_lookup. intros j m' Hm'.
    apply (PassUpTo_not_violating (length messages) messages out j);
      try done.
    rewrite <- Hl. by apply lookup_lt_is_Some_1; eexists.
Qed.

End ValidationProperties.

(** The counters of [getValidationStats]: the valid results and the issues
    never overlap, and together they fall short of the total by the
    results that are both valid and fixed, which are counted as fixed
    only. *)
Theorem getValidationStats_partition (results : list ValidationResult) :
  stats_total (getValidationStats results)
  = stats_valid (getValidationStats results)
    + stats_issues (getValidationStats results)
    + length (List.filter
                (fun r => result_valid r && result_fixed r) results)
  /\ stats_fixed (getValidationStats results)
     <= stats_total (getValidationStats results).
Proof.
  unfold getValidationStats. simpl.
  induction results as [|r results [IHsum IHfixed]]; [simpl; lia|].
  simpl. destruct (result_valid r), (result_fixed r); simpl; lia.
Qed.

(** ** Validation of the sample conversations *)

Lemma WellFormed_scenarioB : WellFormed scenarioB.
Proof. repeat constructor; discriminate. Qed.

(** The statistics of a run over [twoViolations]. *)
Example twoViolations_stats :
  match (validateMessages (K := referenceConstants) twoViolations
           "claude-opus-4-thinking").2 with
  | Normal results => Some (getValidationStats results)
  | Throws => None
  end
  = Some {| stats_total := 3; stats_valid := 1;
            stats_fixed := 2; stats_issues := 2 |}.
Proof. reflexivity. Qed.

Lemma validateMessages_nothing_to_fix_witness :
  validateMessages (K := referenceConstants) scenarioB "gpt-4"
  = (scenarioB, Normal (replicate 2 passedResult)).
Proof.
  apply (validateMessages_nothing_to_fix (K := referenceConstants)
           scenarioB "gpt-4").
  - apply WellFormed_scenarioB.
  - left. reflexivity.
Defined.

Lemma validateMessages_repairs_like_transform_witness :
  (validateMessages (K := referenceConstants) twoViolations
     "claude-opus-4-thinking").1
  = (transform (K := referenceConstants) twoViolations).1
  /\ ((validateMessages (K := referenceConstants) twoViolations
         "claude-opus-4-thinking").2 = Throws
      <-> (transform (K := referenceConstants) twoViolations).2 = Throws).
Proof.
  apply (validateMessages_repairs_like_transform (K := referenceConstants)
           [sampleAssistant "msg_1" [samplePart "tool_use"]]
           [sampleAssistant "msg_3" [samplePart "text"; samplePart "tool"]]
           (sampleUser "msg_2" "claude-opus-4-thinking")).
  - reflexivity.
  - repeat constructor. discriminate.
  - reflexivity.
Defined.

(** The condition on the messages after the user message matters: when one
    of them lacks its info record the hook throws in its scan, before any
    repair, while [validateMessages] has repaired what comes before that
    message by the time it throws. *)
Example validateMessages_differs_after_last_user :
  transform (K := referenceConstants) brokenAtTheEnd
  = (brokenAtTheEnd, Throws)
  /\ (validateMessages (K := referenceConstants) brokenAtTheEnd
        "claude-opus-4-thinking").2 = Throws
  /\ (validateMessages (K := referenceConstants) brokenAtTheEnd
        "claude-opus-4-thinking").1 <> brokenAtTheEnd.
Proof. repeat split. discriminate. Qed.

Lemma validateMessages_reports_witness :
  exists out results,
    validateMessages (K := referenceConstants) twoViolations
      "claude-opus-4-thinking" = (out, Normal results)
    /\ length results = 3
    /\ forall j m,
         twoViolations !! j = Some m ->
         exists r,
           results !! j = Some r
           /\ result_fixed r = isViolation (K := referenceConstants) m
           /\ result_valid r
              = negb (isViolation (K := referenceConstants) m).
Proof.
  apply (validateMessages_reports (K := referenceConstants) twoViolations
           "claude-opus-4-thinking").
  - apply WellFormed_twoViolations.
  - reflexivity.
Defined.

Lemma getValidationStats_counts_violations_witness :
  exists out results,
    validateMessages (K := referenceConstants) twoViolations
      "claude-opus-4-thinking" = (out, Normal results)
    /\ stats_total (getValidationStats results) = 3
    /\ stats_fixed (getValidationStats results) = 2
    /\ stats_issues (getValidationStats results) = 2
    /\ stats_valid (getValidationStats results) + 2 = 3.
Proof.
  apply (getValidationStats_counts_violations (K := referenceConstants)
           twoViolations "claude-opus-4-thinking").
  - apply WellFormed_twoViolations.
  - reflexivity.
Defined.

Lemma validateMessages_second_run_witness :
  validateMessages (K := referenceConstants)
    (validateMessages (K := referenceConstants) twoViolations
       "claude-opus-4-thinking").1
    "claude-opus-4-thinking"
  = ((validateMessages (K := referenceConstants) twoViolations
        "claude-opus-4-thinking").1,
     Normal (replicate 3 passedResult)).
Proof.
  apply (validateMessages_second_run (K := referenceConstants)
           twoViolations "claude-opus-4-thinking").
  - apply reference_thinking_listed.
  - apply WellFormed_twoViolations.
  - reflexivity.
Defined.

(** ** The backward search, against its description *)

Section SearchSpec.
Context {K : Constants}.

Lemma NotBlank_iff (t : string) : NotBlank t <-> ~ isBlank t.
Proof.
  split.
  - intros (c & Hc & Hw) Hblank. rewrite (Hblank c Hc) in Hw. done.
  - apply not_isBlank_witness.
Qed.

Lemma truthy_iff (t : string) : truthy t = true <-> t <> "".
Proof. destruct t; simpl; split; done. Qed.

Lemma NotBlank_truthy (t : string) : NotBlank t -> truthy t = true.
Proof. intros (c & Hc & _). by destruct t. Qed.

(** The value the code keeps for a part is its thinking text, provided it
    is not blank. *)
Lemma thinkingText_iff (part : MessagePart) (t : string) :
  thinkingText part = Some t <-> ThinkingOrText part t /\ NotBlank t.
Proof.
  assert (Hkeep : forall s : string,
    (if truthy s && (0 <? String.length (trim s)) then Some s else None)
    = Some t <-> s = t /\ NotBlank t).
  { intros s. split.
    - destruct (truthy s); simpl; [|done].
      destruct (0 <? String.length (trim s)) eqn:Hlen; [|done].
      intros [= <-]. split; [done|].
      by apply NotBlank_iff, trim_length_positive.
    - intros [-> Hnb]. rewrite (NotBlank_truthy t Hnb).
      apply NotBlank_iff, trim_length_positive in Hnb. by rewrite Hnb. }
  unfold thinkingText, ThinkingOrText.
  destruct (part_thinking part) as [th|].
  - destruct (truthy th) eqn:Hth.
    + rewrite Hkeep. apply truthy_iff in Hth. split.
      * intros [-> Hnb]. split; [|done]. left. done.
      * intros [[[[= ->] _] | [[? | [= ->]] _]] Hnb]; done.
    + assert (th = "") as ->.
      { destruct th; [done | discriminate Hth]. }
      destruct (part_text part) as [tx|].
      * rewrite Hkeep. split.
        -- intros [-> Hnb]. split; [|done]. right. auto.
        -- intros [[[[= <-] Hne] | [_ [= ->]]] Hnb]; done.
      * split; [done|]. intros [[[[= <-] Hne] | [_ ?]] Hnb]; done.
  - destruct (part_text part) as [tx|].
    + rewrite Hkeep. split.
      * intros [-> Hnb]. split; [|done]. right. auto.
      * intros [[[? _] | [_ [= ->]]] Hnb]; done.
    + split; [done|]. intros [[[? _] | [_ ?]] Hnb]; done.
Qed.

Lemma ReusableThinking_iff (part : MessagePart) (t : string) :
  ReusableThinking part t <->
  isThinkingPart part = true /\ thinkingText part = Some t.
Proof.
  unfold ReusableThinking, isThinkingPart.
  rewrite arrayIncludes_spec, thinkingText_iff. tauto.
Qed.

Lemma NoThinkingText_iff (ps : list MessagePart) :
  NoThinkingText ps <-> forall p t', In p ps -> ~ ReusableThinking p t'.
Proof.
  unfold NoThinkingText. rewrite Forall_forall. split.
  - intros Hnone p t' Hp [Hth Htext]%ReusableThinking_iff.
    apply list_elem_of_In in Hp. rewrite (Hnone p Hp Hth) in Htext. done.
  - intros Hnone p Hp Hth.
    destruct (thinkingText p) as [t'|] eqn:Htext; [|done].
    destruct (Hnone p t'); [by apply list_elem_of_In|].
    by apply ReusableThinking_iff.
Qed.

Lemma FirstReusableThinking_iff (ps : list MessagePart) (t : string) :
  FirstReusableThinking ps t <-> FirstThinkingText ps t.
Proof.
  unfold FirstReusableThinking, FirstThinkingText. split.
  - intros (b & p & a & -> & [Hth Htext]%ReusableThinking_iff & Hb).
    exists b, p, a. repeat split; try done. by apply NoThinkingText_iff.
  - intros (b & p & a & -> & Hth & Htext & Hb).
    exists b, p, a. split; [done|]. split.
    + by apply ReusableThinking_iff.
    + by apply NoThinkingText_iff.
Qed.

Lemma roleIs_assistant_iff (m : MessageWithParts) :
  roleIs assistant m = true <->
  exists info, msg_info m = Some info /\ info_role info = assistant.
Proof.
  unfold roleIs. destruct (msg_info m) as [info|].
  - split.
    + intros Hrole. exists info. split; [done|].
      by destruct (info_role info).
    + intros (info' & [= <-] & ->). done.
  - split; [done | by intros (info & ? & _)].
Qed.

Lemma AssistantOffers_iff (m : MessageWithParts) (t : string) :
  AssistantOffers m t <-> OffersThinking m t.
Proof.
  unfold AssistantOffers, OffersThinking.
  rewrite roleIs_assistant_iff.
  split; intros [Hrole (ps & Hps & Hfirst)]; (split; [done|]);
    exists ps; (split; [done|]); by apply FirstReusableThinking_iff.
Qed.

Lemma OffersNothing_iff (m : MessageWithParts) :
  OffersNothing m <-> forall t, ~ AssistantOffers m t.
Proof.
  split.
  - intros Hnothing t Hoffer%AssistantOffers_iff.
    by apply (Offers_contradiction m t).
  - intros Hnone Hrole ps Hps.
    destruct (scanParts ps) as [t|] eqn:Hscan; [|by apply scanParts_None].
    destruct (Hnone t). apply AssistantOffers_iff. split; [done|].
    exists ps. split; [done | by apply scanParts_Some].
Qed.

Lemma MostRecentOffer_iff (messages : list MessageWithParts) i (t : string) :
  MostRecentOffer messages i t <-> MostRecentThinking messages i t.
Proof.
  unfold MostRecentOffer, MostRecentThinking. split.
  - intros (j & m & Hj & Hm & Hoffer%AssistantOffers_iff & Hbetween).
    exists j, m. repeat split; try done; try apply Hoffer.
    intros k m' Hk Hm'. apply OffersNothing_iff. intros t'.
    by apply (Hbetween k).
  - intros (j & m & Hj & Hm & Hoffer%AssistantOffers_iff & Hbetween).
    exists j, m. repeat split; try done; try apply Hoffer.
    intros k m' t' Hk Hm'. by apply OffersNothing_iff, (Hbetween k).
Qed.

Lemma NoOfferBefore_iff (messages : list MessageWithParts) i :
  NoOfferBefore messages i <-> NoEarlierThinking messages i.
Proof.
  unfold NoOfferBefore, NoEarlierThinking. split.
  - intros Hnone k m' Hk Hm'. apply OffersNothing_iff. intros t'.
    by apply (Hnone k).
  - intros Hnone k m' t' Hk Hm'. by apply OffersNothing_iff, (Hnone k).
Qed.

Lemma MostRecentThinking_unique (messages : list MessageWithParts) i
    (t t' : string) :
  MostRecentThinking messages i t -> MostRecentThinking messages i t' ->
  t = t'.
Proof.
  intros (j & m & Hj & Hm & Hoffer & Hbetween)
         (j' & m' & Hj' & Hm' & Hoffer' & Hbetween').
  destruct (lt_eq_lt_dec j j') as [[Hlt | ->] | Hgt].
  - destruct (Offers_contradiction m' t' Hoffer').
    apply (Hbetween j'); [lia | done].
  - rewrite Hm in Hm'. injection Hm' as <-.
    by apply (OffersThinking_unique m).
  - destruct (Offers_contradiction m t Hoffer).
    apply (Hbetween' j); [lia | done].
Qed.

(** C5. For an index within the array and messages below it that carry
    their info record, the backward search returns normally, and what it
    returns is fixed by the conversation below the index alone.  If some
    assistant message before the index has a thinking-like part with a
    non-empty thinking text (the [thinking] field, or the [text] field when
    [thinking] is absent or empty, with something other than white space in
    it), the search returns the text of the first such part of the most
    recent such message; messages of other roles, and parts that are not
    thinking-like or whose text is absent or blank, are passed over.  If
    there is none, it returns the empty string.  One of the two is always
    the case, and messages at or after the index have no part in it. *)
Theorem findPreviousThinkingContent_spec (i : nat)
    (messages : list MessageWithParts) :
  i <= length messages -> WellFormed (take i messages) ->
  ((exists t, MostRecentOffer messages i t) \/ NoOfferBefore messages i)
  /\ (forall t, MostRecentOffer messages i t ->
                findPreviousThinkingContent messages i = Normal t)
  /\ (NoOfferBefore messages i ->
      findPreviousThinkingContent messages i = Normal "")
  /\ (forall messages',
        take i messages' = take i messages ->
        findPreviousThinkingContent messages' i
        = findPreviousThinkingContent messages i).
Proof.
  intros Hi Hwf.
  destruct (findPreviousThinkingContent_found i messages Hi Hwf)
    as (found & Hfind & Hwhat).
  repeat split.
  - destruct Hwhat as [Hrecent | [Hnone _]].
    + left. exists found. by apply MostRecentOffer_iff.
    + right. by apply NoOfferBefore_iff.
  - intros t Hrecent%MostRecentOffer_iff. rewrite Hfind. f_equal.
    destruct Hwhat as [Hrecent' | [Hnone _]].
    + by apply (MostRecentThinking_unique messages i).
    + destruct Hrecent as (j & m & Hj & Hm & Hoffer & _).
      destruct (Offers_contradiction m t Hoffer). by apply (Hnone j).
  - intros Hnone%NoOfferBefore_iff. rewrite Hfind. f_equal.
    destruct Hwhat as [Hrecent | [_ ->]]; [|done].
    destruct Hrecent as (j & m & Hj & Hm & Hoffer & _).
    destruct (Offers_contradiction m found Hoffer). by apply (Hnone j).
  - intros messages'. apply findPreviousThinkingContent_take.
Qed.

End SearchSpec.

(** In [blankThinking] the turn just before index 3 has a thinking part of
    white space only, so what is offered there is the text of the older
    turn, across the user message. *)
Lemma MostRecentOffer_blankThinking :
  MostRecentOffer (K := referenceConstants) blankThinking 3 "older".
Proof.
  exists 0, (sampleAssistant "msg_1"
               [sampleThinking "older"; samplePart "text"]).
  split; [lia|]. split; [reflexivity|]. split.
  - split; [by eexists|]. eexists. split; [reflexivity|].
    exists [], (sampleThinking "older"), [samplePart "text"].
    split; [reflexivity|]. split; [|by intros p t' []].
    split; [by left|]. split; [left; by split|].
    exists "o"%char. split; [by left | reflexivity].
  - intros k m' t' Hk Hm'. revert t'.
    apply (OffersNothing_iff (K := referenceConstants)).
    destruct k as [|[|[|k]]]; try lia; simpl in Hm'; injection Hm' as <-.
    + intros Hrole. discriminate Hrole.
    + intros _ ps [= <-].
      apply Forall_cons. split; [intros _; reflexivity|].
      apply Forall_cons. split; [intros Hth; discriminate Hth|].
      apply Forall_nil_2.
Qed.

Lemma findPreviousThinkingContent_spec_witness :
  3 <= length blankThinking
  /\ WellFormed (take 3 blankThinking)
  /\ MostRecentOffer (K := referenceConstants) blankThinking 3 "older"
  /\ findPreviousThinkingContent (K := referenceConstants) blankThinking 3
     = Normal "older".
Proof.
  assert (Hi : 3 <= length blankThinking) by (simpl; lia).
  assert (Hwf : WellFormed (take 3 blankThinking))
    by (repeat constructor; discriminate).
  split; [exact Hi|]. split; [exact Hwf|].
  split; [apply MostRecentOffer_blankThinking|].
  apply (proj1 (proj2 (findPreviousThinkingContent_spec
                         (K := referenceConstants) 3 blankThinking Hi Hwf))).
  apply MostRecentOffer_blankThinking.
Defined.
